(** * Permit validation service (strr_api.services.validation_service)

    A shallow embedding of [ValidationService]: the unit-number normaliser
    [_get_filtered_unit_number], the helpers [_get_text_after_hyphen] and
    [_extract_street_number], the matcher [check_permit_details] and the
    orchestrator [validate_permit], followed by the properties of the
    permit-matching specification.  The generator of application numbers of
    [strr_api.models.application] is embedded beside them.

    Text is modelled as lists of 7-bit ASCII characters.  Python's [str] is
    Unicode; the character classes and the case mappings below are the ASCII
    ones, so code points above 127 are outside the scope of this model. *)

From Stdlib Require Import Ascii String List Bool Arith ZArith Lia DecimalString.
Import ListNotations.

(** ** Text *)

Module Text.

Definition str := list ascii.

(** A literal. *)
Definition py (s : string) : str := list_ascii_of_string s.

Definition code (c : ascii) : nat := nat_of_ascii c.

Definition between (lo hi : nat) (c : ascii) : bool :=
  (lo <=? code c) && (code c <=? hi).

(** [str.isspace] on one character, which is also the class [\s] of [re]
    for [str] patterns: TAB, LF, VT, FF, CR, FS, GS, RS, US and SPACE. *)
Definition isspace (c : ascii) : bool :=
  between 9 13 c || between 28 31 c || (code c =? 32).

Definition isdigit (c : ascii) : bool := between 48 57 c.
Definition isupper (c : ascii) : bool := between 65 90 c.
Definition islower (c : ascii) : bool := between 97 122 c.

(** The class [\w] of [re]: letters, digits and the underscore. *)
Definition isword (c : ascii) : bool :=
  isdigit c || isupper c || islower c || (code c =? 95).

Definition lower_char (c : ascii) : ascii :=
  if isupper c then ascii_of_nat (code c + 32) else c.

Definition upper_char (c : ascii) : ascii :=
  if islower c then ascii_of_nat (code c - 32) else c.

(** [s.lower()] and [s.upper()]. *)
Definition lower (s : str) : str := map lower_char s.
Definition upper (s : str) : str := map upper_char s.

Definition eqc (a b : ascii) : bool := Ascii.eqb a b.

(** [a == b] on strings. *)
Fixpoint eqs (a b : str) : bool :=
  match a, b with
  | [], [] => true
  | x :: a', y :: b' => eqc x y && eqs a' b'
  | _, _ => false
  end.

Fixpoint dropwhile (p : ascii -> bool) (s : str) : str :=
  match s with
  | [] => []
  | c :: r => if p c then dropwhile p r else s
  end.

Fixpoint takewhile (p : ascii -> bool) (s : str) : str :=
  match s with
  | [] => []
  | c :: r => if p c then c :: takewhile p r else []
  end.

(** [s.strip()]: leading and trailing whitespace removed. *)
Definition lstrip (s : str) : str := dropwhile isspace s.
Definition rstrip (s : str) : str := rev (dropwhile isspace (rev s)).
Definition strip (s : str) : str := rstrip (lstrip s).

Definition is_space_char (c : ascii) : bool := eqc c " "%char.
Definition is_hyphen (c : ascii) : bool := eqc c "-"%char.

(** [s.replace(" ", "")]: every SPACE character removed. *)
Definition remove_spaces (s : str) : str :=
  filter (fun c => negb (is_space_char c)) s.

(** [s.split(" ")[0]]: the text before the first SPACE character. *)
Definition split_space_first (s : str) : str :=
  takewhile (fun c => negb (is_space_char c)) s.

(** ["-" in s]. *)
Definition has_hyphen (s : str) : bool := existsb is_hyphen s.

(** [s.split("-", 1)[1]] for an [s] that has a hyphen: the text after
    the first one. *)
Definition after_first_hyphen (s : str) : str :=
  tl (dropwhile (fun c => negb (is_hyphen c)) s).

(** [s[:n]]. *)
Definition slice_to (n : nat) (s : str) : str := firstn n s.

End Text.

Import Text.

(** ** Regular-expression substitution

    [re.sub(pattern, repl, s)] scans [s] from left to right.  At each position
    it tries the pattern; on a match the replacement is emitted and the scan
    resumes after the matched text, otherwise the character is copied and the
    scan moves on by one.  None of the four patterns of the normaliser can
    match the empty string.  A pattern is given by its matcher: from the
    character before the position (for [^] and [\b]) and the text at the
    position to the length of the match and its replacement. *)

Module Re.

Definition matcher := option ascii -> str -> option (nat * str).

(** [skip] counts the characters of the current match still to be
    consumed. *)
Fixpoint sub_from (m : matcher) (skip : nat) (prev : option ascii) (s : str)
  : str :=
  match s with
  | [] => []
  | c :: r =>
      match skip with
      | S k => sub_from m k (Some c) r
      | O =>
          match m prev s with
          | Some (S k, repl) => repl ++ sub_from m k (Some c) r
          | _ => c :: sub_from m O (Some c) r
          end
      end
  end.

Definition sub (m : matcher) (s : str) : str := sub_from m 0 None s.

Definition word_before (prev : option ascii) : bool :=
  match prev with Some c => isword c | None => false end.

Definition word_at (s : str) : bool :=
  match s with c :: _ => isword c | [] => false end.

(** [\b]: exactly one side of the position is a word character. *)
Definition boundary (prev : option ascii) (s : str) : bool :=
  xorb (word_before prev) (word_at s).

(** The length of the run of characters of a class at the head of [s]:
    a greedy [[...]*]. *)
Definition run (p : ascii -> bool) (s : str) : nat :=
  length (takewhile p s).

(** Does [s] start with [k], letters compared without case (IGNORECASE)? *)
Fixpoint starts_with_ci (k s : str) : bool :=
  match k, s with
  | [], _ => true
  | x :: k', y :: s' => eqc (lower_char x) (lower_char y) && starts_with_ci k' s'
  | _ :: _, [] => false
  end.

End Re.

Import Re.

(** ** The unit-number normaliser *)

(** The class [[#-]]. *)
Definition is_hash_or_hyphen (c : ascii) : bool :=
  eqc c "#"%char || eqc c "-"%char.

(** [^[#-]+\s*]: at the start of the text only, the run of marks and the
    whitespace after it. *)
Definition leading_marks : matcher := fun prev s =>
  match prev with
  | Some _ => None
  | None =>
      match run is_hash_or_hyphen s with
      | O => None
      | S _ as n => Some (n + run isspace (skipn n s), [])
      end
  end.

(** The alternatives of the keyword pattern, in the order of the source.
    The last one, [No\.?], takes a following period when there is one. *)
Inductive alternative :=
| Lit (k : str)
| LitOptDot (k : str).

Definition KEYWORD_ALTERNATIVES : list alternative :=
  [ Lit (py "Suite"); Lit (py "Unit"); Lit (py "SL"); Lit (py "Strata Lot");
    Lit (py "Room"); Lit (py "Lot"); Lit (py "RM"); Lit (py "Cabin");
    Lit (py "Bldg"); Lit (py "ste"); Lit (py "Nbr"); Lit (py "Unt");
    Lit (py "Apartment"); Lit (py "Apt"); Lit (py "Number"); Lit (py "Num");
    Lit (py "Floor"); Lit (py "Flr"); Lit (py "Fl"); Lit (py "BUILDING");
    LitOptDot (py "No") ].

Definition match_alternative (a : alternative) (s : str) : option nat :=
  match a with
  | Lit k => if starts_with_ci k s then Some (length k) else None
  | LitOptDot k =>
      if starts_with_ci k s then
        match skipn (length k) s with
        | c :: _ => if eqc c "."%char then Some (S (length k)) else Some (length k)
        | [] => Some (length k)
        end
      else None
  end.

(** The first alternative that matches wins: nothing follows the group. *)
Fixpoint match_first (alts : list alternative) (s : str) : option nat :=
  match alts with
  | [] => None
  | a :: rest =>
      match match_alternative a s with
      | Some n => Some n
      | None => match_first rest s
      end
  end.

(** [\b(Suite|Unit|...|No\.?)] *)
Definition keyword : matcher := fun prev s =>
  if boundary prev s then
    match match_first KEYWORD_ALTERNATIVES s with
    | Some n => Some (n, [])
    | None => None
    end
  else None.

(** The class [[-.\s]]. *)
Definition is_separator (c : ascii) : bool :=
  eqc c "-"%char || eqc c "."%char || isspace c.

(** [[-.\s]+] *)
Definition separators : matcher := fun _ s =>
  match run is_separator s with
  | O => None
  | S _ as n => Some (n, [])
  end.

Definition is_zero (c : ascii) : bool := eqc c "0"%char.

(** [\b0+(\w+)] replaced by [\1].  [0+] takes the whole run of zeros; when a
    word character follows it, [\w+] takes the rest of the word; when none
    does, [0+] gives one zero back to [\w+], which needs two zeros at least. *)
Definition leading_zeros : matcher := fun prev s =>
  if boundary prev s then
    match run is_zero s with
    | O => None
    | S z' as z =>
        match run isword (skipn z s) with
        | S _ as w => Some (z + w, firstn w (skipn z s))
        | O => match z' with
               | O => None
               | S _ => Some (z, [ "0"%char ])
               end
        end
    end
  else None.

(** The four substitutions in the order of the source, then [upper()]. *)
Definition _get_filtered_unit_number (unit_number : str) : str :=
  let unit_number := sub leading_marks unit_number in
  let unit_number := sub keyword unit_number in
  let unit_number := sub separators unit_number in
  let unit_number := sub leading_zeros unit_number in
  upper unit_number.

(** ** Python values and exceptions *)

Inductive exn := AttributeError | TypeError.

Inductive result (A : Type) :=
| Ok (a : A)
| Raise (e : exn).

Arguments Ok {A} a.
Arguments Raise {A} e.

Definition bind {A B} (r : result A) (k : A -> result B) : result B :=
  match r with
  | Ok a => k a
  | Raise e => Raise e
  end.

Notation "x <- c1 ;; c2" := (bind c1 (fun x => c2))
  (at level 61, c1 at next level, right associativity).

(** The values of a JSON payload, as deep as the payloads of this endpoint
    go: scalars, objects of scalars (the address of a request, an entry of
    the error list) and lists of such objects. *)
Inductive scalar :=
| SNone
| SBool (b : bool)
| SInt (z : Z)
| SStr (s : str).

Definition obj := list (string * scalar).

Inductive value :=
| VScalar (v : scalar)
| VObj (o : obj)
| VList (l : list obj).

Definition dict := list (string * value).

(** [d.get(k)], [None] when the key is absent. *)
Fixpoint get {V} (d : list (string * V)) (k : string) : option V :=
  match d with
  | [] => None
  | (k', v) :: r => if String.eqb k' k then Some v else get r k
  end.

(** [d[k] = v]: the value is replaced where the key is, added at the end
    otherwise. *)
Fixpoint set {V} (d : list (string * V)) (k : string) (v : V)
  : list (string * V) :=
  match d with
  | [] => [(k, v)]
  | (k', v') :: r =>
      if String.eqb k' k then (k, v) :: r else (k', v') :: set r k v
  end.

Definition keys {V} (d : list (string * V)) : list string := map fst d.

(** [str(x)] *)
Definition py_str (x : scalar) : str :=
  match x with
  | SNone => py "None"
  | SBool true => py "True"
  | SBool false => py "False"
  | SInt z => py (NilZero.string_of_int (Z.to_int z))
  | SStr s => s
  end.

(** Truth value of [x] in a condition. *)
Definition truthy (x : scalar) : bool :=
  match x with
  | SNone => false
  | SBool b => b
  | SInt z => negb (Z.eqb z 0)
  | SStr s => negb (eqs s [])
  end.

(** A nullable text attribute of a stored record, as a value. *)
Definition of_attr (a : option str) : scalar :=
  match a with
  | Some s => SStr s
  | None => SNone
  end.

(** [x.get(k, default)] on whatever [request_json.get("address")] returned:
    only a dict has the method. *)
Definition obj_get (x : option value) (k : string) (default : scalar)
  : result scalar :=
  match x with
  | Some (VObj o) =>
      match get o k with
      | Some v => Ok v
      | None => Ok default
      end
  | _ => Raise AttributeError
  end.

(** [x.replace(" ", "")]: only a [str] has the method. *)
Definition replace_spaces (x : scalar) : result str :=
  match x with
  | SStr s => Ok (remove_spaces s)
  | _ => Raise AttributeError
  end.

(** [re.sub(pattern, repl, x)] wants a string. *)
Definition filtered (x : scalar) : result str :=
  match x with
  | SStr s => Ok (_get_filtered_unit_number s)
  | _ => Raise TypeError
  end.

(** [a in (b, c)] *)
Definition in_pair (a b c : str) : bool := eqs a b || eqs a c.

(** ** Enumerations *)

(** Modelled from the spec: the enumeration RegistrationStatus is declared in
    strr_api.enums.enum, which is not among the sources; the matcher only
    tells ACTIVE from the other members and reads their names. *)
Inductive RegistrationStatus := ACTIVE | EXPIRED | SUSPENDED | CANCELLED.

Definition status_name (s : RegistrationStatus) : str :=
  match s with
  | ACTIVE => py "ACTIVE"
  | EXPIRED => py "EXPIRED"
  | SUSPENDED => py "SUSPENDED"
  | CANCELLED => py "CANCELLED"
  end.

Definition is_active (s : RegistrationStatus) : bool :=
  match s with ACTIVE => true | _ => false end.

(** Modelled from the spec: the enumeration RegistrationType is declared in
    strr_api.enums.enum as well.  The matcher compares the type of a
    registration with the values of HOST and of STRATA_HOTEL; PLATFORM stands
    for a type that is neither. *)
Inductive RegistrationType := HOST | PLATFORM | STRATA_HOTEL.

(** The members of ErrorMessage that the service names; their values, the
    message texts, are a parameter of the service below. *)
Inductive ErrorMessage :=
| PERMIT_NOT_FOUND
| STREET_NUMBER_MISMATCH
| POSTAL_CODE_MISMATCH
| UNIT_NUMBER_MISMATCH
| ADDRESS_MISMATCH.

Definition error_name (e : ErrorMessage) : str :=
  match e with
  | PERMIT_NOT_FOUND => py "PERMIT_NOT_FOUND"
  | STREET_NUMBER_MISMATCH => py "STREET_NUMBER_MISMATCH"
  | POSTAL_CODE_MISMATCH => py "POSTAL_CODE_MISMATCH"
  | UNIT_NUMBER_MISMATCH => py "UNIT_NUMBER_MISMATCH"
  | ADDRESS_MISMATCH => py "ADDRESS_MISMATCH"
  end.

(** The members of [http.HTTPStatus] that the service returns. *)
Inductive HTTPStatus := OK | BAD_REQUEST | NOT_FOUND.

(** ** Stored records *)

(** An instant; [expiry_date] is only handed to the date formatter. *)
Definition datetime := Z.

Record Address := {
  street_number : option str;
  unit_number : option str;
  postal_code : option str;
  street_address : option str
}.

Record RentalProperty := { address : Address }.

Record Building := { building_address : Address }.

Record StrataHotel := {
  location : Address;
  buildings : list Building
}.

Record StrataHotelRegistration := { strata_hotel : StrataHotel }.

Record Registration := {
  status : RegistrationStatus;
  registration_type : RegistrationType;
  rental_property : option RentalProperty;
  strata_hotel_registration : option StrataHotelRegistration;
  expiry_date : datetime
}.

(** [x.attr] where [x] may be [None]. *)
Definition deref {A} (x : option A) : result A :=
  match x with
  | Some a => Ok a
  | None => Raise AttributeError
  end.

(** ** The helpers of the strata branch *)

Definition _get_text_after_hyphen (address_line : str) : str :=
  if has_hyphen address_line then strip (after_first_hyphen address_line)
  else address_line.

Definition _extract_street_number (address : str) : str :=
  split_space_first (strip address).

(** ** The matcher and the orchestrator *)

Section ValidationService.

(** [ErrorMessage.X.value], the message texts of strr_api.enums.enum. *)
Variable message_of : ErrorMessage -> str.

(** [DateUtil.as_legislation_timezone(d).strftime("%Y-%m-%d")]. *)
Variable legislation_date : datetime -> str.

Definition error_entry (e : ErrorMessage) : obj :=
  [ ("code"%string, SStr (error_name e));
    ("message"%string, SStr (message_of e)) ].

(** [request_postal_code == permit_postal_code or (len(...) >= 4 and ...)] *)
Definition postal_codes_agree (request_postal_code permit_postal_code : str)
  : bool :=
  eqs request_postal_code permit_postal_code
  || ((4 <=? length request_postal_code)
      && eqs (slice_to 4 request_postal_code) (slice_to 4 permit_postal_code)).

(** The HOST branch: the three checks, each adding its error. *)
Definition host_errors (address_json : option value)
    (registration : Registration) : result (list ErrorMessage) :=
  let errors := [] in
  (* Street Number validation *)
  street_number_json <- obj_get address_json "streetNumber" SNone ;;
  let request_street_number := strip (lower (py_str street_number_json)) in
  let request_street_number_sub := split_space_first request_street_number in
  rental <- deref (rental_property registration) ;;
  let permit_street_number := street_number (address rental) in
  let errors :=
    match permit_street_number with
    | Some n =>
        if truthy (SStr n)
           && negb (in_pair (strip (lower n))
                      request_street_number request_street_number_sub)
        then errors ++ [STREET_NUMBER_MISMATCH]
        else errors
    | None => errors
    end in
  (* Postal code validation *)
  postal_json <- obj_get address_json "postalCode" (SStr []) ;;
  request_spaceless <- replace_spaces postal_json ;;
  let request_postal_code := lower request_spaceless in
  permit_spaceless <- replace_spaces (of_attr (postal_code (address rental))) ;;
  let permit_postal_code := lower permit_spaceless in
  let errors :=
    if negb (postal_codes_agree request_postal_code permit_postal_code)
    then errors ++ [POSTAL_CODE_MISMATCH]
    else errors in
  (* Unit number validation *)
  input_unit_number <- obj_get address_json "unitNumber" SNone ;;
  let permit_unit_number := of_attr (unit_number (address rental)) in
  has_unit_number_validation_error <-
    (if truthy input_unit_number then
       if truthy permit_unit_number then
         filtered_input_unit_number <- filtered input_unit_number ;;
         filtered_permit_unit_number <- filtered permit_unit_number ;;
         Ok (negb (eqs filtered_input_unit_number filtered_permit_unit_number))
       else Ok true
     else
       if truthy permit_unit_number then Ok true else Ok false) ;;
  let errors :=
    if (has_unit_number_validation_error : bool)
    then errors ++ [UNIT_NUMBER_MISMATCH]
    else errors in
  Ok errors.

(** [_get_text_after_hyphen(x)] on an attribute: ["-" in None] is a
    TypeError. *)
Definition text_after_hyphen_of (line : option str) : result str :=
  match line with
  | Some l => Ok (_get_text_after_hyphen l)
  | None => Raise TypeError
  end.

(** The test made on the primary location and on each building: the street
    number first, and the postal codes only when it agrees ([and]). *)
Definition candidate_matches (address_json : option value)
    (request_street_number request_street_number_sub : str)
    (candidate : Address) : result bool :=
  text <- text_after_hyphen_of (street_address candidate) ;;
  let candidate_street_number := _extract_street_number text in
  if in_pair candidate_street_number
       request_street_number request_street_number_sub
  then
    postal_json <- obj_get address_json "postalCode" (SStr []) ;;
    request_spaceless <- replace_spaces postal_json ;;
    candidate_spaceless <- replace_spaces (of_attr (postal_code candidate)) ;;
    Ok (eqs (slice_to 4 (lower request_spaceless))
            (slice_to 4 (lower candidate_spaceless)))
  else Ok false.

(** [for building in strata_hotel.buildings: ... break] *)
Fixpoint buildings_match (address_json : option value)
    (request_street_number request_street_number_sub : str)
    (bs : list Building) : result bool :=
  match bs with
  | [] => Ok false
  | building :: rest =>
      found <- candidate_matches address_json request_street_number
                 request_street_number_sub (building_address building) ;;
      if (found : bool) then Ok true
      else buildings_match address_json request_street_number
             request_street_number_sub rest
  end.

(** The STRATA_HOTEL branch. *)
Definition strata_errors (address_json : option value)
    (registration : Registration) : result (list ErrorMessage) :=
  strata_registration <- deref (strata_hotel_registration registration) ;;
  let hotel := strata_hotel strata_registration in
  street_number_json <- obj_get address_json "streetNumber" SNone ;;
  let request_street_number := strip (py_str street_number_json) in
  let request_street_number_sub := split_space_first request_street_number in
  match_found <- candidate_matches address_json request_street_number
                   request_street_number_sub (location hotel) ;;
  match_found <-
    (if (match_found : bool) then Ok true
     else buildings_match address_json request_street_number
            request_street_number_sub (buildings hotel)) ;;
  Ok (if (match_found : bool) then [] else [ADDRESS_MISMATCH]).

(** The errors of an active registration, by registration type. *)
Definition permit_errors (request_json : dict) (registration : Registration)
  : result (list ErrorMessage) :=
  let address_json := get request_json "address" in
  match registration_type registration with
  | HOST => host_errors address_json registration
  | STRATA_HOTEL => strata_errors address_json registration
  | PLATFORM => Ok []
  end.

Definition status_only (request_json : dict) (registration : Registration)
  : dict :=
  set request_json "status" (VScalar (SStr (status_name (status registration)))).

(** The end of [check_permit_details]: the error list, or the status and
    the date, written into the copy of the request. *)
Definition respond (request_json : dict) (registration : Registration)
    (errors : list ErrorMessage) : dict * HTTPStatus :=
  match errors with
  | _ :: _ =>
      (set request_json "errors" (VList (map error_entry errors)), BAD_REQUEST)
  | [] =>
      (set (status_only request_json registration) "validUntil"
         (VScalar (SStr (legislation_date (expiry_date registration)))), OK)
  end.

(** [response] starts as a deep copy of [request_json]; values here are
    immutable, so the copy is the value itself. *)
Definition check_permit_details (request_json : dict)
    (registration : Registration) : result (dict * HTTPStatus) :=
  if negb (is_active (status registration)) then
    Ok (status_only request_json registration, OK)
  else
    errors <- permit_errors request_json registration ;;
    Ok (respond request_json registration errors).

(** [validate(request_json, "real_time_validation")] of
    strr_api.schemas.utils: whether the request is valid, and the errors. *)
Variable validate : dict -> bool * list obj.

(** [RegistrationService.find_by_registration_number]. *)
Variable find_by_registration_number : option value -> option Registration.

(** A row of the RealTimeValidation table. *)
Record RealTimeValidation := {
  request_json_of : dict;
  response_json_of : dict;
  status_code_of : HTTPStatus
}.

(** [save()] adds the row to the table. *)
Definition create_real_time_validation_audit_record
    (request response : dict) (status : HTTPStatus)
    (table : list RealTimeValidation) : list RealTimeValidation :=
  table ++ [ {| request_json_of := request;
                response_json_of := response;
                status_code_of := status |} ].

Definition validate_permit (request_json : dict)
    (table : list RealTimeValidation)
  : result ((dict * HTTPStatus) * list RealTimeValidation) :=
  let response : dict := [] in
  let '(valid, errors) := validate request_json in
  outcome <-
    (if negb valid then
       Ok (set response "errors" (VList errors), BAD_REQUEST)
     else
       match find_by_registration_number (get request_json "identifier") with
       | Some registration => check_permit_details request_json registration
       | None =>
           Ok (set response "errors" (VList [error_entry PERMIT_NOT_FOUND]),
               NOT_FOUND)
       end) ;;
  let '(response, status_code) := outcome in
  Ok ((response, status_code),
      create_real_time_validation_audit_record request_json response
        status_code table).

End ValidationService.

(** ** Vocabulary of the properties *)

(** The field [k] of a claimed address is a string, or is left out. *)
Definition text_or_absent (o : obj) (k : string) : bool :=
  match get o k with
  | None | Some (SStr _) => true
  | _ => false
  end.

(** The field is a string, is null, or is left out. *)
Definition text_null_or_absent (o : obj) (k : string) : bool :=
  match get o k with
  | None | Some SNone | Some (SStr _) => true
  | _ => false
  end.

(** [o.get(k, "")] when that is a string. *)
Definition claim_text (o : obj) (k : string) : str :=
  match get o k with
  | Some (SStr s) => s
  | _ => []
  end.

(** [o.get(k)] as the text [str()] makes of it. *)
Definition claim_str (o : obj) (k : string) : str :=
  match get o k with
  | Some v => py_str v
  | None => py_str SNone
  end.

(** The claimed unit number, when it is a string. *)
Definition claim_unit (o : obj) : option str :=
  match get o "unitNumber" with
  | Some (SStr s) => Some s
  | _ => None
  end.

(** "Has a unit number": the text is there and is not empty. *)
Definition has_unit (u : option str) : bool :=
  match u with
  | Some (_ :: _) => true
  | _ => false
  end.

Definition has_text (x : option str) : bool :=
  match x with
  | Some _ => true
  | None => false
  end.

Definition attr_text (x : option str) : str :=
  match x with
  | Some s => s
  | None => []
  end.

(** A postal code as the checks compare it: spaces removed, lower case. *)
Definition postal_key (s : str) : str := lower (remove_spaces s).

(** An active HOST registration on [permit], asked about [claim]: the
    request carries the address object [claim] whose postal code is a string
    (or left out) and whose unit number is a string, null or left out, and
    the permit address has a postal code. *)
Definition active_host_case (request_json : dict) (registration : Registration)
    (claim : obj) (permit : Address) : Prop :=
  status registration = ACTIVE
  /\ registration_type registration = HOST
  /\ rental_property registration = Some {| address := permit |}
  /\ get request_json "address" = Some (VObj claim)
  /\ text_or_absent claim "postalCode" = true
  /\ text_null_or_absent claim "unitNumber" = true
  /\ has_text (postal_code permit) = true.

(** An active STRATA_HOTEL registration on [hotel], asked about [claim]. *)
Definition active_strata_case (request_json : dict)
    (registration : Registration) (claim : obj) (hotel : StrataHotel) : Prop :=
  status registration = ACTIVE
  /\ registration_type registration = STRATA_HOTEL
  /\ strata_hotel_registration registration = Some {| strata_hotel := hotel |}
  /\ get request_json "address" = Some (VObj claim)
  /\ text_or_absent claim "postalCode" = true.

(** The addresses a strata registration is matched against, in the order
    they are tried. *)
Definition candidates (hotel : StrataHotel) : list Address :=
  location hotel :: map building_address (buildings hotel).

(** The street number of a candidate's address line: the first token, up to
    a SPACE, of the trimmed text after the first hyphen, or of the trimmed
    line when it has no hyphen. *)
Definition candidate_number (line : str) : str :=
  split_space_first
    (strip (if has_hyphen line then after_first_hyphen line else line)).

(** The street number as the specification words it: the first
    whitespace-delimited token of that text. *)
Definition first_whitespace_token (s : str) : str :=
  takewhile (fun c => negb (isspace c)) (dropwhile isspace s).

Definition stated_candidate_number (line : str) : str :=
  first_whitespace_token
    (if has_hyphen line then after_first_hyphen line else line).

(** The claimed street number of the strata branch, and its first token. *)
Definition strata_claim_number (claim : obj) : str :=
  strip (claim_str claim "streetNumber").

Definition number_agrees (claim : obj) (line : str) : Prop :=
  candidate_number line = strata_claim_number claim
  \/ candidate_number line = split_space_first (strata_claim_number claim).

Definition prefix_agrees (claim : obj) (code : str) : Prop :=
  slice_to 4 (postal_key (claim_text claim "postalCode"))
  = slice_to 4 (postal_key code).

(** A candidate the claim matches, and one it does not.  A candidate is
    turned down on its street number alone, whatever its postal code. *)
Definition accepted (claim : obj) (candidate : Address) : Prop :=
  exists line code,
    street_address candidate = Some line
    /\ postal_code candidate = Some code
    /\ number_agrees claim line
    /\ prefix_agrees claim code.

Definition turned_down (claim : obj) (candidate : Address) : Prop :=
  exists line,
    street_address candidate = Some line
    /\ (~ number_agrees claim line
        \/ exists code, postal_code candidate = Some code
                        /\ ~ prefix_agrees claim code).

(** The three findings of the HOST branch, each as a function of the claim
    and the permit address. *)
Definition street_mismatch (claim : obj) (permit : Address) : bool :=
  match street_number permit with
  | Some n =>
      truthy (SStr n)
      && negb (in_pair (strip (lower n))
                 (strip (lower (claim_str claim "streetNumber")))
                 (split_space_first (strip (lower (claim_str claim "streetNumber")))))
  | None => false
  end.

Definition postal_mismatch (claim : obj) (permit : Address) : bool :=
  negb (postal_codes_agree (postal_key (claim_text claim "postalCode"))
          (postal_key (attr_text (postal_code permit)))).

Definition unit_mismatch (claim : obj) (permit : Address) : bool :=
  match has_unit (claim_unit claim), has_unit (unit_number permit) with
  | true, true =>
      negb (eqs (_get_filtered_unit_number (attr_text (claim_unit claim)))
                (_get_filtered_unit_number (attr_text (unit_number permit))))
  | false, false => false
  | _, _ => true
  end.

Definition flag (b : bool) (e : ErrorMessage) : list ErrorMessage :=
  if b then [e] else [].

(** The primary location and the buildings tried in turn, up to the first
    that matches: the test on the location followed by the loop over the
    buildings. *)
Fixpoint first_match (address_json : option value)
    (request_street_number request_street_number_sub : str)
    (cs : list Address) : result bool :=
  match cs with
  | [] => Ok false
  | c :: rest =>
      found <- candidate_matches address_json request_street_number
                 request_street_number_sub c ;;
      if (found : bool) then Ok true
      else first_match address_json request_street_number
             request_street_number_sub rest
  end.




(** The keyword pattern as the specification words it: a keyword counts only
    as a whole word, so no word character may follow the match. *)
Definition keyword_whole_word : matcher := fun prev s =>
  match keyword prev s with
  | Some (n, repl) =>
      if word_at (skipn n s) then None else Some (n, repl)
  | None => None
  end.

(** The response reports the error [e]: the status code is BAD_REQUEST and
    the list under "errors" holds the entry of [e], its name with its
    message. *)
Definition reports (message_of : ErrorMessage -> str)
    (outcome : dict * HTTPStatus) (e : ErrorMessage) : Prop :=
  snd outcome = BAD_REQUEST
  /\ exists entries,
       get (fst outcome) "errors" = Some (VList entries)
       /\ In (error_entry message_of e) entries.

(** ** Vocabulary of the normaliser's properties *)

(** The literal text of an alternative. *)
Definition alternative_text (a : alternative) : str :=
  match a with Lit k | LitOptDot k => k end.

(** Does the pattern match at this position (a match of no character
    counts for nothing in [sub_from])? *)
Definition hits (m : matcher) (prev : option ascii) (s : str) : bool :=
  match m prev s with
  | Some (S _, _) => true
  | _ => false
  end.

(** Does the pattern match at some position of [s]? *)
Fixpoint occurs (m : matcher) (prev : option ascii) (s : str) : bool :=
  match s with
  | [] => false
  | c :: r => hits m prev s || occurs m (Some c) r
  end.

(** A pattern whose matches lie within the text and are replaced by
    something shorter. *)
Definition shrinking (m : matcher) : Prop :=
  forall prev s n repl,
    m prev s = Some (n, repl) -> n <= length s /\ length repl < n.

(** A pattern whose matches are replaced by nothing. *)
Definition deleting (m : matcher) : Prop :=
  forall prev s n repl, m prev s = Some (n, repl) -> repl = [].

(** The characters of [s] that a substitution takes into a match, position
    by position: the scan of [sub_from], keeping the verdicts. *)
Fixpoint matched_from (m : matcher) (skip : nat) (prev : option ascii) (s : str)
  : list bool :=
  match s with
  | [] => []
  | c :: r =>
      match skip with
      | S k => true :: matched_from m k (Some c) r
      | O =>
          match m prev s with
          | Some (S k, _) => true :: matched_from m k (Some c) r
          | _ => false :: matched_from m O (Some c) r
          end
      end
  end.

Definition matched (m : matcher) (s : str) : list bool :=
  matched_from m 0 None s.

(** The characters outside the matches. *)
Fixpoint unmatched (s : str) (mask : list bool) : str :=
  match s, mask with
  | c :: r, b :: bs => if b then unmatched r bs else c :: unmatched r bs
  | _, _ => []
  end.

(** The character at position [i] of [s] is removed by the substitution. *)
Definition removed (m : matcher) (s : str) (i : nat) : Prop :=
  nth i (matched m s) false = true.

(** The keywords: the texts the alternatives stand for. *)
Definition alternative_texts (a : alternative) : list str :=
  match a with
  | Lit k => [k]
  | LitOptDot k => [k; k ++ py "."]
  end.

Definition KEYWORD_TEXTS : list str :=
  flat_map alternative_texts KEYWORD_ALTERNATIVES.

(** The last character of [s], or [prev] when [s] is empty. *)
Fixpoint last_from (prev : option ascii) (s : str) : option ascii :=
  match s with
  | [] => prev
  | c :: r => last_from (Some c) r
  end.

(** What follows [pre] starts a word: [pre] is empty or ends with a
    character that is not a word character. *)
Definition at_word_start (pre : str) : Prop :=
  word_before (last_from None pre) = false.

(** The same text, letters compared without case. *)
Definition same_text_ci (a b : str) : Prop := lower a = lower b.

(** Walking the alternatives up to the one that has the text [K]: no
    alternative met on the way is a shorter beginning of [K]. *)
Fixpoint reached_first (alts : list alternative) (K : str) : bool :=
  match alts with
  | [] => false
  | b :: rest =>
      if existsb (eqs K) (alternative_texts b) then true
      else (negb (starts_with_ci (alternative_text b) K)
            || (length K <=? length (alternative_text b)))
           && reached_first rest K
  end.

(** Where an alternative has a character that is not a word character,
    what is left of it after that character is not a shorter beginning of a
    keyword. *)
Definition rest_covers (a : alternative) (j : nat) : bool :=
  isword (nth (j - 1) (alternative_text a) " "%char)
  || forallb (fun K =>
                negb (starts_with_ci (skipn j (alternative_text a)) K)
                || (length K <=? length (alternative_text a) - j))
       KEYWORD_TEXTS.

(** ** Vocabulary of the further properties *)

(** The finding of the HOST branch that goes with an error code. *)
Definition host_finding (claim : obj) (permit : Address) (e : ErrorMessage)
  : bool :=
  match e with
  | STREET_NUMBER_MISMATCH => street_mismatch claim permit
  | POSTAL_CODE_MISMATCH => postal_mismatch claim permit
  | UNIT_NUMBER_MISMATCH => unit_mismatch claim permit
  | _ => false
  end.

(** The value of [address_json.get("unitNumber", None)]. *)
Definition claim_unit_value (o : obj) : scalar :=
  match get o "unitNumber" with
  | Some v => v
  | None => SNone
  end.

Definition is_text (v : scalar) : bool :=
  match v with SStr _ => true | _ => false end.

(** The unit numbers can be compared: when both sides have one, the claimed
    one is a string. *)
Definition unit_comparable (claim : obj) (permit : Address) : bool :=
  negb (truthy (claim_unit_value claim) && has_unit (unit_number permit))
  || is_text (claim_unit_value claim).

(** An active HOST registration on [permit] asked about the address object
    [claim], with no condition on what the two hold. *)
Definition active_host_request (request_json : dict)
    (registration : Registration) (claim : obj) (permit : Address) : Prop :=
  status registration = ACTIVE
  /\ registration_type registration = HOST
  /\ rental_property registration = Some {| address := permit |}
  /\ get request_json "address" = Some (VObj claim).

(** [a] is [b] with some characters left out. *)
Inductive subsequence : str -> str -> Prop :=
| subsequence_nil : subsequence [] []
| subsequence_keep c a b : subsequence a b -> subsequence (c :: a) (c :: b)
| subsequence_drop c a b : subsequence a b -> subsequence a (c :: b).

(** A pattern whose replacement is made of characters of the match, in
    their order. *)
Definition conservative (m : matcher) : Prop :=
  forall prev s n repl,
    m prev s = Some (n, repl) -> subsequence repl (firstn n s).

(** A pattern that does not tell a text from its image under [f]. *)
Definition blind_to (f : ascii -> ascii) (m : matcher) : Prop :=
  forall prev s,
    m (option_map f prev) (map f s)
    = match m prev s with
      | Some (n, repl) => Some (n, map f repl)
      | None => None
      end.

(** A text of digits without its leading zeros, the last one kept when
    there is nothing else. *)
Definition without_leading_zeros (s : str) : str :=
  match dropwhile is_zero s with
  | [] => match s with [] => [] | _ :: _ => [ "0"%char ] end
  | t => t
  end.

(** The text of a keyword starts with a character that is not a digit. *)
Definition starts_with_no_digit (a : alternative) : bool :=
  match alternative_text a with
  | x :: _ => negb (isdigit (lower_char x))
  | [] => false
  end.

(** ** Application numbers (strr_api.models.application)

    [Application.generate_unique_application_number].  The numbers come from
    a random source: [draw i] is what [_generate_application_number()]
    returns at its [i]-th call.  [table] holds the application numbers in
    use, which [cls.query.filter_by(application_number=new_number).first()]
    looks up.  [None] stands for the ValueError raised after the last
    attempt. *)
Fixpoint try_numbers (attempts : nat) (draw : nat -> str) (i : nat)
    (table : list str) : option str :=
  match attempts with
  | O => None
  | S rest =>
      let new_number := draw i in
      if existsb (eqs new_number) table
      then try_numbers rest draw (S i) table
      else Some new_number
  end.

Definition max_attempts : nat := 10.

Definition generate_unique_application_number (draw : nat -> str)
    (table : list str) : option str :=
  try_numbers max_attempts draw 0 table.

(** ** Sample data *)

(** A message table and a date formatter to run the service on. *)
Definition sample_message (e : ErrorMessage) : str := error_name e.
Definition sample_date (d : datetime) : str :=
  py (NilZero.string_of_int (Z.to_int d)).

Definition sample_address_json : obj :=
  [ ("streetNumber"%string, SStr (py "123"));
    ("postalCode"%string, SStr (py "V8V 1V1"));
    ("unitNumber"%string, SStr (py "4B")) ].

Definition sample_request : dict :=
  [ ("identifier"%string, VScalar (SStr (py "H123456789")));
    ("address"%string, VObj sample_address_json) ].

Definition sample_address : Address :=
  {| street_number := Some (py "123");
     unit_number := Some (py "4B");
     postal_code := Some (py "V8V 1V1");
     street_address := Some (py "123 Main St") |}.

Definition host_registration (s : RegistrationStatus) (a : Address)
  : Registration :=
  {| status := s;
     registration_type := HOST;
     rental_property := Some {| address := a |};
     strata_hotel_registration := None;
     expiry_date := 0%Z |}.

Definition strata_registration (s : RegistrationStatus) (primary : Address)
    (others : list Address) : Registration :=
  {| status := s;
     registration_type := STRATA_HOTEL;
     rental_property := None;
     strata_hotel_registration :=
       Some {| strata_hotel :=
                 {| location := primary;
                    buildings := map (fun a => {| building_address := a |}) others |} |};
     expiry_date := 0%Z |}.

(** The sample address with its postal code missing. *)
Definition address_without_postal_code : Address :=
  {| street_number := Some (py "123");
     unit_number := Some (py "4B");
     postal_code := None;
     street_address := Some (py "123 Main St") |}.

(** A strata hotel whose third building is the one claimed; the fourth
    building has no address on file. *)
Definition oak_street : Address :=
  {| street_number := None; unit_number := None;
     postal_code := Some (py "V8V 1V1");
     street_address := Some (py "1-10 Oak St") |}.

Definition pine_street : Address :=
  {| street_number := None; unit_number := None;
     postal_code := Some (py "V9A 1A1");
     street_address := Some (py "20 Pine St") |}.

Definition main_street_elsewhere : Address :=
  {| street_number := None; unit_number := None;
     postal_code := Some (py "V9A 1A1");
     street_address := Some (py "123 Main St") |}.

Definition main_street : Address :=
  {| street_number := None; unit_number := None;
     postal_code := Some (py "v8v1z9");
     street_address := Some (py "5-123 Main St") |}.

Definition address_not_on_file : Address :=
  {| street_number := None; unit_number := None;
     postal_code := None; street_address := None |}.

Definition sample_hotel : StrataHotel :=
  {| location := oak_street;
     buildings :=
       map (fun a => {| building_address := a |})
         [pine_street; main_street_elsewhere; main_street; address_not_on_file] |}.

Definition sample_strata : Registration :=
  strata_registration ACTIVE oak_street
    [pine_street; main_street_elsewhere; main_street; address_not_on_file].

(** An address line with a TAB after the street number. *)
Definition TAB : ascii := ascii_of_nat 9.

Definition tabbed_line : str := py "12" ++ [TAB] ++ py "Main St".

Definition tabbed_address : Address :=
  {| street_number := None; unit_number := None;
     postal_code := Some (py "V8V 1V1");
     street_address := Some tabbed_line |}.

Definition claim_of_12 : obj :=
  [ ("streetNumber"%string, SStr (py "12"));
    ("postalCode"%string, SStr (py "V8V 1V1")) ].

Definition request_of_12 : dict :=
  [ ("identifier"%string, VScalar (SStr (py "ST123456789")));
    ("address"%string, VObj claim_of_12) ].

(** A request with no postal code, and addresses whose postal code is made
    of spaces, or of a TAB. *)
Definition claim_without_postal_code : obj :=
  [ ("streetNumber"%string, SStr (py "12")) ].

Definition request_without_postal_code : dict :=
  [ ("identifier"%string, VScalar (SStr (py "ST123456789")));
    ("address"%string, VObj claim_without_postal_code) ].

Definition address_with_blank_postal_code : Address :=
  {| street_number := None; unit_number := None;
     postal_code := Some (py "  ");
     street_address := Some (py "12 Main St") |}.

Definition address_with_tab_postal_code : Address :=
  {| street_number := None; unit_number := None;
     postal_code := Some [TAB];
     street_address := Some (py "12 Main St") |}.

(** A claim and a permit whose unit numbers are keywords only. *)
Definition claim_of_suite : obj :=
  [ ("streetNumber"%string, SStr (py "123"));
    ("postalCode"%string, SStr (py "V8V 1V1"));
    ("unitNumber"%string, SStr (py "Suite")) ].

Definition request_of_suite : dict :=
  [ ("identifier"%string, VScalar (SStr (py "H123456789")));
    ("address"%string, VObj claim_of_suite) ].

Definition address_of_room : Address :=
  {| street_number := Some (py "123");
     unit_number := Some (py "Room");
     postal_code := Some (py "V8V 1V1");
     street_address := Some (py "123 Main St") |}.

(** Collaborators: a schema validator that accepts every request, one that
    refuses every request, and registries that know one registration or
    none. *)
Definition accept_all (request_json : dict) : bool * list obj := (true, []).

Definition refuse_all (request_json : dict) : bool * list obj :=
  (false, [ [ ("message"%string, SStr (py "invalid")) ] ]).

Definition registry_of (r : Registration) (identifier : option value)
  : option Registration := Some r.

Definition empty_registry (identifier : option value) : option Registration :=
  None.

(** A permit on which the sample claim is wrong on every count. *)
Definition address_elsewhere : Address :=
  {| street_number := Some (py "99");
     unit_number := Some (py "7");
     postal_code := Some (py "V9A 1A1");
     street_address := Some (py "99 Pine St") |}.

(** A registration of a platform. *)
Definition platform_registration : Registration :=
  {| status := ACTIVE;
     registration_type := PLATFORM;
     rental_property := None;
     strata_hotel_registration := None;
     expiry_date := 0%Z |}.

(** A request with no address, and one whose unit number is the integer 4. *)
Definition request_without_address : dict :=
  [ ("identifier"%string, VScalar (SStr (py "H123456789"))) ].

Definition claim_with_numeric_unit : obj :=
  [ ("streetNumber"%string, SStr (py "123"));
    ("postalCode"%string, SStr (py "V8V 1V1"));
    ("unitNumber"%string, SInt 4%Z) ].

Definition request_with_numeric_unit : dict :=
  [ ("identifier"%string, VScalar (SStr (py "H123456789")));
    ("address"%string, VObj claim_with_numeric_unit) ].

(** A strata hotel whose first building has no address on file, and whose
    second building is the one claimed. *)
Definition hotel_with_gap : StrataHotel :=
  {| location := pine_street;
     buildings :=
       map (fun a => {| building_address := a |})
         [address_not_on_file; main_street] |}.

Definition strata_with_gap : Registration :=
  strata_registration ACTIVE pine_street [address_not_on_file; main_street].

(** A random source whose first two numbers are in use. *)
Definition sample_draw (i : nat) : str :=
  match i with
  | 0 => py "11111111111111"
  | 1 => py "22222222222222"
  | _ => py "33333333333333"
  end.

Definition numbers_in_use : list str :=
  [ py "22222222222222"; py "11111111111111" ].

(** The claim and the permit of the postal prefix example. *)
Definition claim_of_prefix : obj :=
  [ ("streetNumber"%string, SStr (py "123"));
    ("postalCode"%string, SStr (py "V8V1V1")) ].

Definition request_of_prefix : dict :=
  [ ("identifier"%string, VScalar (SStr (py "H123456789")));
    ("address"%string, VObj claim_of_prefix) ].

Definition address_of_prefix : Address :=
  {| street_number := Some (py "123");
     unit_number := None;
     postal_code := Some (py "V8V 1V2");
     street_address := Some (py "123 Main St") |}.

(** ** Properties *)

Example filtered_suite_4b : _get_filtered_unit_number (py "Suite 4B") = py "4B".
Proof. reflexivity. Qed.

Example filtered_hash_007a : _get_filtered_unit_number (py "#007A") = py "7A".
Proof. reflexivity. Qed.

Example filtered_unit_12_c : _get_filtered_unit_number (py "Unit 12 - C") = py "12C".
Proof. reflexivity. Qed.

Example filtered_apt_3 : _get_filtered_unit_number (py "APT 3") = py "3".
Proof. reflexivity. Qed.

Example filtered_unit_hash_5 : _get_filtered_unit_number (py "Unit #5") = py "#5".
Proof. reflexivity. Qed.

Example filtered_flat : _get_filtered_unit_number (py "Flat") = py "AT".
Proof. reflexivity. Qed.

Example filtered_zeros : _get_filtered_unit_number (py "000 0-0x0") = py "X0".
Proof. reflexivity. Qed.

(** *** Dictionaries *)

Lemma get_set_same {V} (d : list (string * V)) k v :
  get (set d k v) k = Some v.
Proof.
  induction d as [|[k' v'] r IH]; simpl.
  - now rewrite String.eqb_refl.
  - destruct (String.eqb k' k) eqn:E; simpl.
    + now rewrite String.eqb_refl.
    + now rewrite E.
Qed.

Lemma get_set_other {V} (d : list (string * V)) k k' v :
  k <> k' -> get (set d k v) k' = get d k'.
Proof.
  intros Hk. induction d as [|[k0 v0] r IH]; simpl.
  - destruct (String.eqb k k') eqn:E; [apply String.eqb_eq in E; contradiction | reflexivity].
  - destruct (String.eqb k0 k) eqn:E; simpl.
    + apply String.eqb_eq in E; subst k0.
      destruct (String.eqb k k') eqn:E'; [apply String.eqb_eq in E'; contradiction | reflexivity].
    + now rewrite IH.
Qed.

Lemma keys_set {V} (d : list (string * V)) k v :
  keys (set d k v) = if existsb (String.eqb k) (keys d) then keys d
                     else keys d ++ [k].
Proof.
  unfold keys.
  induction d as [|[k0 v0] r IH]; simpl; [reflexivity|].
  rewrite (String.eqb_sym k k0).
  destruct (String.eqb k0 k) eqn:E; simpl.
  - apply String.eqb_eq in E. now subst.
  - rewrite IH. now destruct (existsb _ _).
Qed.

(** *** Text equality *)

Lemma eqc_eq a b : eqc a b = true <-> a = b.
Proof. apply Ascii.eqb_eq. Qed.

Lemma eqs_eq a b : eqs a b = true <-> a = b.
Proof.
  revert b; induction a as [|x a IH]; intros [|y b]; simpl; split; intros H;
    try reflexivity; try discriminate.
  - apply andb_true_iff in H as [H1 H2].
    apply eqc_eq in H1. apply IH in H2. now subst.
  - injection H as -> ->. apply andb_true_iff; split; [now apply eqc_eq | now apply IH].
Qed.

Lemma eqs_neq a b : eqs a b = false <-> a <> b.
Proof.
  split; intros H.
  - intros E. apply eqs_eq in E. congruence.
  - destruct (eqs a b) eqn:E; [apply eqs_eq in E; contradiction | reflexivity].
Qed.

Lemma eqs_refl a : eqs a a = true.
Proof. now apply eqs_eq. Qed.

(** *** Trimming *)

Lemma dropwhile_head p s :
  match dropwhile p s with [] => True | c :: _ => p c = false end.
Proof.
  induction s as [|c r IH]; simpl; [exact I|].
  destruct (p c) eqn:E; [exact IH | exact E].
Qed.

Lemma dropwhile_fixed p s :
  match s with [] => True | c :: _ => p c = false end -> dropwhile p s = s.
Proof. destruct s as [|c r]; simpl; [reflexivity|]. now intros ->. Qed.

Lemma dropwhile_idem p s : dropwhile p (dropwhile p s) = dropwhile p s.
Proof. apply dropwhile_fixed, dropwhile_head. Qed.

Lemma dropwhile_suffix p s : exists pre, s = pre ++ dropwhile p s.
Proof.
  induction s as [|c r [pre IH]]; simpl.
  - now exists [].
  - destruct (p c); [exists (c :: pre); simpl; now f_equal | now exists []].
Qed.

(** The last character of a text that was stripped on the left, then on the
    right from its reverse, is not whitespace. *)
Lemma rev_dropwhile_head p s :
  match s with [] => True | c :: _ => p c = false end ->
  match rev (dropwhile p (rev s)) with [] => True | c :: _ => p c = false end.
Proof.
  destruct s as [|c r]; [intros _; exact I|]. intros Hc.
  destruct (dropwhile_suffix p (rev (c :: r))) as [pre E].
  pose proof (dropwhile_head p (rev (c :: r))) as Hh.
  destruct (dropwhile p (rev (c :: r))) as [|x t] eqn:Ed; [exact I|].
  assert (R : c :: r = rev (x :: t) ++ rev pre).
  { rewrite <- rev_app_distr, <- E, rev_involutive. reflexivity. }
  destruct (rev (x :: t)) as [|y u] eqn:Er.
  - apply (f_equal (@length _)) in Er. rewrite length_rev in Er. discriminate.
  - simpl in R. injection R as <- _. exact Hc.
Qed.

Lemma strip_idem s : strip (strip s) = strip s.
Proof.
  unfold strip, lstrip, rstrip.
  rewrite (dropwhile_fixed isspace (rev (dropwhile isspace (rev (dropwhile isspace s))))).
  - rewrite rev_involutive, dropwhile_idem. reflexivity.
  - apply rev_dropwhile_head, dropwhile_head.
Qed.

Lemma extract_after_hyphen line :
  _extract_street_number (_get_text_after_hyphen line) = candidate_number line.
Proof.
  unfold _extract_street_number, _get_text_after_hyphen, candidate_number.
  destruct (has_hyphen line); [now rewrite strip_idem | reflexivity].
Qed.

(** *** The matcher *)

Section MatcherProperties.

Variable message_of : ErrorMessage -> str.
Variable legislation_date : datetime -> str.

Lemma host_errors_run request registration claim permit :
  active_host_case request registration claim permit ->
  host_errors (Some (VObj claim)) registration
  = Ok (flag (street_mismatch claim permit) STREET_NUMBER_MISMATCH
        ++ flag (postal_mismatch claim permit) POSTAL_CODE_MISMATCH
        ++ flag (unit_mismatch claim permit) UNIT_NUMBER_MISMATCH).
Proof.
  intros (_ & _ & Hrp & _ & Hpc & Hun & Hpp).
  unfold host_errors, obj_get. rewrite Hrp. simpl.
  unfold street_mismatch, postal_mismatch, unit_mismatch, claim_str, claim_text,
    claim_unit, postal_key, text_or_absent, text_null_or_absent in *.
  destruct (postal_code permit) as [pp|]; [|discriminate]. simpl.
  destruct (get claim "postalCode") as [[| | |pc]|]; try discriminate; simpl;
  destruct (get claim "unitNumber") as [[| | |un]|]; try discriminate; simpl;
  destruct (get claim "streetNumber") as [sn|]; simpl;
  destruct (street_number permit) as [n|]; simpl;
  destruct (unit_number permit) as [[|u0 u]|]; simpl;
  try destruct un as [|c0 un]; simpl;
  repeat match goal with |- context [if ?b then _ else _] => destruct b; simpl end;
  reflexivity.
Qed.

Lemma in_flag b e x : In x (flag b e) <-> b = true /\ x = e.
Proof.
  destruct b; simpl; split.
  - intros [H|[]]; auto.
  - intros [_ H]; auto.
  - intros [].
  - intros [H _]; discriminate.
Qed.

Lemma check_active request registration :
  status registration = ACTIVE ->
  check_permit_details message_of legislation_date request registration
  = errors <- permit_errors request registration ;;
    Ok (respond message_of legislation_date request registration errors).
Proof.
  intros H. unfold check_permit_details. now rewrite H.
Qed.

Lemma check_host request registration claim permit :
  active_host_case request registration claim permit ->
  check_permit_details message_of legislation_date request registration
  = Ok (respond message_of legislation_date request registration
          (flag (street_mismatch claim permit) STREET_NUMBER_MISMATCH
           ++ flag (postal_mismatch claim permit) POSTAL_CODE_MISMATCH
           ++ flag (unit_mismatch claim permit) UNIT_NUMBER_MISMATCH)).
Proof.
  intros H. pose proof (@host_errors_run _ _ _ _ H) as E.
  destruct H as (Hs & Ht & _ & Ha & _).
  rewrite (@check_active request registration Hs). unfold permit_errors.
  rewrite Ht, Ha, E. reflexivity.
Qed.

Lemma unit_flagged claim permit :
  In UNIT_NUMBER_MISMATCH
    (flag (street_mismatch claim permit) STREET_NUMBER_MISMATCH
     ++ flag (postal_mismatch claim permit) POSTAL_CODE_MISMATCH
     ++ flag (unit_mismatch claim permit) UNIT_NUMBER_MISMATCH)
  <-> unit_mismatch claim permit = true.
Proof.
  rewrite !in_app_iff, !in_flag. split.
  - intros [[_ H]|[[_ H]|[H _]]]; try discriminate; assumption.
  - intros H; right; right; auto.
Qed.

Lemma postal_flagged claim permit :
  In POSTAL_CODE_MISMATCH
    (flag (street_mismatch claim permit) STREET_NUMBER_MISMATCH
     ++ flag (postal_mismatch claim permit) POSTAL_CODE_MISMATCH
     ++ flag (unit_mismatch claim permit) UNIT_NUMBER_MISMATCH)
  <-> postal_mismatch claim permit = true.
Proof.
  rewrite !in_app_iff, !in_flag. split.
  - intros [[_ H]|[[H _]|[_ H]]]; try discriminate; assumption.
  - intros H; right; left; auto.
Qed.

Lemma error_entry_inj e e' :
  error_entry message_of e = error_entry message_of e' -> e = e'.
Proof.
  unfold error_entry. intros H.
  assert (N : error_name e = error_name e') by (injection H; auto).
  destruct e, e'; try reflexivity; discriminate N.
Qed.

Lemma respond_reports request registration errors e :
  reports message_of
    (respond message_of legislation_date request registration errors) e
  <-> In e errors.
Proof.
  unfold reports, respond. destruct errors as [|e0 errors]; cbn [fst snd].
  - split; [intros [H _]; discriminate H | intros []].
  - rewrite get_set_same. remember (e0 :: errors) as l eqn:El. clear El.
    split.
    + intros (_ & entries & E & Hin).
      assert (Ee : entries = map (error_entry message_of) l) by congruence.
      subst entries. apply in_map_iff in Hin as (x & Ex & Hx).
      apply error_entry_inj in Ex. now subst.
    + intros Hin. split; [reflexivity|]. eexists. split; [reflexivity|].
      now apply in_map.
Qed.

(** C1: the unit-number check of an active HOST registration.  The
    response reports UNIT_NUMBER_MISMATCH, with the status code BAD_REQUEST
    and the entry of the error in its list of errors, as follows.  When the
    claim and the permit both have a unit number, it is reported exactly
    when their normalised forms differ; when exactly one of them has a unit
    number it is reported; when neither has one it is not. *)
Theorem host_unit_number_check request registration claim permit :
  active_host_case request registration claim permit ->
  exists outcome,
    check_permit_details message_of legislation_date request registration
    = Ok outcome
    /\ (forall s t,
          claim_unit claim = Some s -> unit_number permit = Some t ->
          s <> [] -> t <> [] ->
          (reports message_of outcome UNIT_NUMBER_MISMATCH
           <-> _get_filtered_unit_number s <> _get_filtered_unit_number t))
    /\ (has_unit (claim_unit claim) = true ->
        has_unit (unit_number permit) = false ->
        reports message_of outcome UNIT_NUMBER_MISMATCH)
    /\ (has_unit (claim_unit claim) = false ->
        has_unit (unit_number permit) = true ->
        reports message_of outcome UNIT_NUMBER_MISMATCH)
    /\ (has_unit (claim_unit claim) = false ->
        has_unit (unit_number permit) = false ->
        ~ reports message_of outcome UNIT_NUMBER_MISMATCH).
Proof.
  intros H. eexists.
  split; [exact (@check_host _ _ _ _ H)|].
  split; [|split; [|split]].
  - intros s t Hs Ht Hsn Htn. rewrite respond_reports, unit_flagged.
    unfold unit_mismatch. rewrite Hs, Ht.
    destruct s; [contradiction|]. destruct t; [contradiction|].
    cbn [has_unit attr_text]. rewrite negb_true_iff, eqs_neq. reflexivity.
  - intros Hc Hp. rewrite respond_reports, unit_flagged.
    unfold unit_mismatch. now rewrite Hc, Hp.
  - intros Hc Hp. rewrite respond_reports, unit_flagged.
    unfold unit_mismatch. now rewrite Hc, Hp.
  - intros Hc Hp. rewrite respond_reports, unit_flagged.
    unfold unit_mismatch. now rewrite Hc, Hp.
Qed.

(** The test of the HOST branch comes to the same as comparing the first
    four characters: a claimed code shorter than four characters has itself
    as its slice. *)
Lemma postal_codes_agree_prefix a b :
  postal_codes_agree a b = eqs (slice_to 4 a) (slice_to 4 b).
Proof.
  unfold postal_codes_agree, slice_to.
  destruct (eqs a b) eqn:E.
  - apply eqs_eq in E. subst b. now rewrite eqs_refl.
  - cbn [orb]. destruct (4 <=? length a) eqn:L; [reflexivity|].
    cbn [andb]. symmetry. apply eqs_neq. intros H.
    apply eqs_neq in E. apply E. apply Nat.leb_gt in L.
    rewrite (firstn_all2 a) in H by lia.
    assert (Lb : length (firstn 4 b) < 4) by (rewrite <- H; exact L).
    rewrite length_firstn in Lb.
    rewrite (firstn_all2 b) in H by lia. exact H.
Qed.

(** C5: the postal-code check of an active HOST registration.  With spaces
    removed and letters in lower case, the response does not report
    POSTAL_CODE_MISMATCH exactly when the two codes are equal, or the
    claimed code has four characters at least and the first four characters
    of the two agree; otherwise it reports POSTAL_CODE_MISMATCH, with the
    status code BAD_REQUEST and the entry of the error in its list of
    errors. *)
Theorem host_postal_code_check request registration claim permit :
  active_host_case request registration claim permit ->
  exists outcome,
    check_permit_details message_of legislation_date request registration
    = Ok outcome
    /\ (~ reports message_of outcome POSTAL_CODE_MISMATCH
        <-> postal_key (claim_text claim "postalCode")
            = postal_key (attr_text (postal_code permit))
            \/ (4 <= length (postal_key (claim_text claim "postalCode"))
                /\ slice_to 4 (postal_key (claim_text claim "postalCode"))
                   = slice_to 4 (postal_key (attr_text (postal_code permit)))))
    /\ (reports message_of outcome POSTAL_CODE_MISMATCH
        <-> ~ (postal_key (claim_text claim "postalCode")
               = postal_key (attr_text (postal_code permit))
               \/ (4 <= length (postal_key (claim_text claim "postalCode"))
                   /\ slice_to 4 (postal_key (claim_text claim "postalCode"))
                      = slice_to 4 (postal_key (attr_text (postal_code permit)))))).
Proof.
  intros H. eexists.
  split; [exact (@check_host _ _ _ _ H)|].
  rewrite respond_reports, postal_flagged.
  unfold postal_mismatch, postal_codes_agree.
  set (rc := postal_key (claim_text claim "postalCode")).
  set (pc := postal_key (attr_text (postal_code permit))).
  assert (A : eqs rc pc || (4 <=? length rc) && eqs (slice_to 4 rc) (slice_to 4 pc) = true
              <-> rc = pc \/ 4 <= length rc /\ slice_to 4 rc = slice_to 4 pc).
  { rewrite orb_true_iff, andb_true_iff, !eqs_eq, Nat.leb_le. reflexivity. }
  rewrite negb_true_iff. rewrite <- A.
  destruct (eqs rc pc || _); split; split; intros H0; try congruence; try tauto.
Qed.

(** C9: unit numbers that both normalise to the empty string compare equal,
    so no UNIT_NUMBER_MISMATCH is emitted for them; and a unit number that is
    the empty string counts as absent, on the side of the claim as on the
    side of the permit. *)
Theorem units_normalised_to_empty_agree request registration claim permit :
  active_host_case request registration claim permit ->
  exists errors,
    check_permit_details message_of legislation_date request registration
    = Ok (respond message_of legislation_date request registration errors)
    /\ (forall s t,
          claim_unit claim = Some s -> unit_number permit = Some t ->
          s <> [] -> t <> [] ->
          _get_filtered_unit_number s = [] ->
          _get_filtered_unit_number t = [] ->
          ~ In UNIT_NUMBER_MISMATCH errors)
    /\ (get claim "unitNumber" = Some (SStr []) \/ get claim "unitNumber" = None ->
        (In UNIT_NUMBER_MISMATCH errors <-> has_unit (unit_number permit) = true))
    /\ (unit_number permit = Some [] \/ unit_number permit = None ->
        (In UNIT_NUMBER_MISMATCH errors <-> has_unit (claim_unit claim) = true)).
Proof.
  intros H. eexists. split; [exact (@check_host _ _ _ _ H)|].
  split; [|split].
  - intros s t Hs Ht Hsn Htn Es Et. rewrite unit_flagged. unfold unit_mismatch.
    rewrite Hs, Ht.
    destruct s; [contradiction|]. destruct t; [contradiction|].
    cbn [has_unit attr_text]. rewrite Es, Et. discriminate.
  - intros Hc. rewrite unit_flagged. unfold unit_mismatch, claim_unit.
    destruct Hc as [-> | ->]; cbn [has_unit];
      destruct (has_unit (unit_number permit)); split; congruence.
  - intros Hp. rewrite unit_flagged. unfold unit_mismatch.
    destruct Hp as [-> | ->]; cbn [has_unit];
      destruct (has_unit (claim_unit claim)); split; congruence.
Qed.

(** C6, as amended: for a registration that is not ACTIVE the matcher
    returns, whatever the request and the record hold, the copy of the
    request with its "status" entry set to the name of that status, and the
    status code OK; every other entry is the request's own, so no error list
    and no validUntil date is added. *)
Theorem inactive_permit_short_circuit request registration :
  status registration <> ACTIVE ->
  exists response,
    check_permit_details message_of legislation_date request registration
    = Ok (response, OK)
    /\ response
       = set request "status" (VScalar (SStr (status_name (status registration))))
    /\ get response "status"
       = Some (VScalar (SStr (status_name (status registration))))
    /\ (forall k, k <> "status"%string -> get response k = get request k).
Proof.
  intros H. eexists. split; [|split; [reflexivity|split]].
  - unfold check_permit_details, status_only.
    destruct (status registration); [contradiction| | |]; reflexivity.
  - apply get_set_same.
  - intros k Hk. apply get_set_other. congruence.
Qed.





Lemma buildings_match_first_match aj a b bs :
  buildings_match aj a b bs = first_match aj a b (map building_address bs).
Proof.
  induction bs as [|x bs IH]; simpl; [reflexivity|]. now rewrite IH.
Qed.

Lemma obj_get_claim_str claim :
  exists v, obj_get (Some (VObj claim)) "streetNumber" SNone = Ok v
            /\ py_str v = claim_str claim "streetNumber".
Proof.
  unfold obj_get, claim_str. destruct (get claim "streetNumber"); eauto.
Qed.

Lemma strata_errors_first_match claim registration hotel :
  strata_hotel_registration registration = Some {| strata_hotel := hotel |} ->
  strata_errors (Some (VObj claim)) registration
  = match_found <- first_match (Some (VObj claim)) (strata_claim_number claim)
                     (split_space_first (strata_claim_number claim))
                     (candidates hotel) ;;
    Ok (if (match_found : bool) then [] else [ADDRESS_MISMATCH]).
Proof.
  intros Hr. unfold strata_errors. rewrite Hr. cbn [deref bind strata_hotel].
  destruct (obj_get_claim_str claim) as (v & -> & Ev). cbn [bind].
  unfold strata_claim_number. rewrite <- Ev.
  unfold candidates. cbn [first_match]. rewrite buildings_match_first_match.
  destruct (candidate_matches _ _ _ (location hotel)) as [[|]|e]; reflexivity.
Qed.

Lemma postal_get_claim_text claim :
  text_or_absent claim "postalCode" = true ->
  (postal_json <- obj_get (Some (VObj claim)) "postalCode" (SStr []) ;;
   replace_spaces postal_json)
  = Ok (remove_spaces (claim_text claim "postalCode")).
Proof.
  unfold text_or_absent, obj_get, claim_text.
  destruct (get claim "postalCode") as [[| | |pc]|]; try discriminate; reflexivity.
Qed.

Lemma candidate_matches_run claim a b candidate line :
  text_or_absent claim "postalCode" = true ->
  street_address candidate = Some line ->
  candidate_matches (Some (VObj claim)) a b candidate
  = if in_pair (candidate_number line) a b then
      match postal_code candidate with
      | Some code =>
          Ok (eqs (slice_to 4 (postal_key (claim_text claim "postalCode")))
                  (slice_to 4 (postal_key code)))
      | None => Raise AttributeError
      end
    else Ok false.
Proof.
  intros Hp Hl. unfold candidate_matches. rewrite Hl.
  cbn [text_after_hyphen_of bind]. rewrite extract_after_hyphen.
  destruct (in_pair _ _ _); [|reflexivity].
  pose proof (postal_get_claim_text claim Hp) as E.
  unfold text_or_absent, obj_get, claim_text in *.
  destruct (get claim "postalCode") as [[| | |pc]|]; try discriminate;
    cbn [bind replace_spaces]; destruct (postal_code candidate); reflexivity.
Qed.

Lemma in_pair_iff a b c : in_pair a b c = true <-> a = b \/ a = c.
Proof. unfold in_pair. now rewrite orb_true_iff, !eqs_eq. Qed.

Lemma candidate_matches_accepted claim candidate :
  text_or_absent claim "postalCode" = true ->
  accepted claim candidate ->
  candidate_matches (Some (VObj claim)) (strata_claim_number claim)
    (split_space_first (strata_claim_number claim)) candidate = Ok true.
Proof.
  intros Hp (line & code & Hl & Hc & Hn & Hx).
  rewrite (candidate_matches_run _ _ _ _ _ Hp Hl), Hc.
  apply in_pair_iff in Hn. rewrite Hn. f_equal. apply eqs_eq, Hx.
Qed.

Lemma candidate_matches_turned_down claim candidate :
  text_or_absent claim "postalCode" = true ->
  turned_down claim candidate ->
  candidate_matches (Some (VObj claim)) (strata_claim_number claim)
    (split_space_first (strata_claim_number claim)) candidate = Ok false.
Proof.
  intros Hp (line & Hl & Hno).
  rewrite (candidate_matches_run _ _ _ _ _ Hp Hl).
  destruct (in_pair _ _ _) eqn:En; [|reflexivity].
  apply in_pair_iff in En.
  destruct Hno as [Hn | (code & Hc & Hx)]; [contradiction|].
  rewrite Hc. f_equal. apply eqs_neq, Hx.
Qed.

Lemma first_match_stops claim pre c post :
  text_or_absent claim "postalCode" = true ->
  Forall (turned_down claim) pre ->
  accepted claim c ->
  first_match (Some (VObj claim)) (strata_claim_number claim)
    (split_space_first (strata_claim_number claim)) (pre ++ c :: post) = Ok true.
Proof.
  intros Hp Hpre Hc. induction Hpre as [|x pre Hx _ IH]; simpl.
  - now rewrite (candidate_matches_accepted _ _ Hp Hc).
  - now rewrite (candidate_matches_turned_down _ _ Hp Hx).
Qed.

Lemma first_match_none claim cs :
  text_or_absent claim "postalCode" = true ->
  Forall (turned_down claim) cs ->
  first_match (Some (VObj claim)) (strata_claim_number claim)
    (split_space_first (strata_claim_number claim)) cs = Ok false.
Proof.
  intros Hp Hcs. induction Hcs as [|x cs Hx _ IH]; simpl; [reflexivity|].
  now rewrite (candidate_matches_turned_down _ _ Hp Hx).
Qed.

Lemma check_strata request registration claim hotel :
  active_strata_case request registration claim hotel ->
  check_permit_details message_of legislation_date request registration
  = match_found <- first_match (Some (VObj claim)) (strata_claim_number claim)
                     (split_space_first (strata_claim_number claim))
                     (candidates hotel) ;;
    Ok (respond message_of legislation_date request registration
          (if (match_found : bool) then [] else [ADDRESS_MISMATCH])).
Proof.
  intros (Hs & Ht & Hr & Ha & Hp).
  rewrite (check_active request registration Hs).
  unfold permit_errors. rewrite Ht, Ha, (strata_errors_first_match claim _ _ Hr).
  destruct (first_match _ _ _ _); reflexivity.
Qed.

(** C2, as amended: for an active STRATA_HOTEL registration the primary
    location and then the buildings are tried in sequence.  The street
    number of a candidate is the text of its address line after the first
    hyphen (the whole line when it has none), trimmed of whitespace and cut
    at its first SPACE character; the candidate matches when that number is
    the claimed street number or its first SPACE-delimited token and the
    first four characters of the two postal codes, spaces removed and in
    lower case, are equal.  The first candidate that matches ends the search
    with a success, whatever the later candidates hold; when every candidate
    is turned down the response carries the one error ADDRESS_MISMATCH. *)
Theorem strata_first_match_wins request registration claim hotel :
  active_strata_case request registration claim hotel ->
  (forall pre c post,
      candidates hotel = pre ++ c :: post ->
      Forall (turned_down claim) pre ->
      accepted claim c ->
      check_permit_details message_of legislation_date request registration
      = Ok (set (set request "status" (VScalar (SStr (py "ACTIVE"))))
              "validUntil"
              (VScalar (SStr (legislation_date (expiry_date registration)))),
            OK))
  /\ (Forall (turned_down claim) (candidates hotel) ->
      check_permit_details message_of legislation_date request registration
      = Ok (set request "errors"
              (VList [ [ ("code"%string, SStr (py "ADDRESS_MISMATCH"));
                         ("message"%string, SStr (message_of ADDRESS_MISMATCH)) ] ]),
            BAD_REQUEST)).
Proof.
  intros H. pose proof (check_strata _ _ _ _ H) as E.
  destruct H as (Hs & _ & _ & _ & Hp). split.
  - intros pre c post Hc Hpre Hacc.
    rewrite E, Hc, (first_match_stops _ _ _ post Hp Hpre Hacc).
    cbn [bind respond]. unfold status_only. now rewrite Hs.
  - intros Hall. rewrite E, (first_match_none _ _ Hp Hall). reflexivity.
Qed.

Lemma remove_spaces_all_space code :
  Forall (fun c => c = " "%char) code -> remove_spaces code = [].
Proof.
  induction 1 as [|c code Hc _ IH]; [reflexivity|].
  subst c. exact IH.
Qed.

(** C10, as amended: the postal-code test of the strata branch compares the
    first four characters of the two codes, spaces removed and in lower
    case, whatever their lengths; two codes shorter than four characters
    match exactly when they are equal; and a request with no postalCode
    matches a candidate whose postal code is empty or made of SPACE
    characters only. *)
Theorem strata_postal_prefix_without_minimum claim candidate line code :
  text_or_absent claim "postalCode" = true ->
  street_address candidate = Some line ->
  postal_code candidate = Some code ->
  number_agrees claim line ->
  exists verdict,
    candidate_matches (Some (VObj claim)) (strata_claim_number claim)
      (split_space_first (strata_claim_number claim)) candidate = Ok verdict
    /\ (verdict = true
        <-> slice_to 4 (postal_key (claim_text claim "postalCode"))
            = slice_to 4 (postal_key code))
    /\ (length (postal_key (claim_text claim "postalCode")) < 4 ->
        length (postal_key code) < 4 ->
        (verdict = true
         <-> postal_key (claim_text claim "postalCode") = postal_key code))
    /\ (get claim "postalCode" = None ->
        Forall (fun c => c = " "%char) code ->
        verdict = true).
Proof.
  intros Hp Hl Hc Hn.
  rewrite (candidate_matches_run _ _ _ _ _ Hp Hl), Hc.
  apply in_pair_iff in Hn. rewrite Hn. eexists. split; [reflexivity|].
  split; [apply eqs_eq|]. split.
  - intros L1 L2. rewrite eqs_eq. unfold slice_to.
    rewrite !firstn_all2 by lia. reflexivity.
  - intros Hg Hsp. apply eqs_eq. unfold claim_text, postal_key. rewrite Hg.
    now rewrite (remove_spaces_all_space _ Hsp).
Qed.
End MatcherProperties.

(** *** The orchestrator *)

Section OrchestratorProperties.
Variable message_of : ErrorMessage -> str.
Variable legislation_date : datetime -> str.
Variable validate : dict -> bool * list obj.
Variable find_by_registration_number : option value -> option Registration.

(** C7, as amended: every invocation of [validate_permit] that returns to
    its caller adds exactly one row to the audit table, holding the request,
    the response returned and the status code; it returns, with that row,
    when the schema validation fails, when no registration is found, and
    whenever the matcher returns (a mismatch, an inactive permit or a
    success).  When the matcher raises, the exception reaches the caller and
    no row is written. *)
Theorem audit_record_of_every_returning_invocation request table :
  (forall response status_code table',
      validate_permit message_of legislation_date validate
        find_by_registration_number request table
      = Ok ((response, status_code), table') ->
      table' = table ++ [ {| request_json_of := request;
                             response_json_of := response;
                             status_code_of := status_code |} ])
  /\ (fst (validate request) = false ->
      exists response,
        validate_permit message_of legislation_date validate
          find_by_registration_number request table
        = Ok ((response, BAD_REQUEST),
              table ++ [ {| request_json_of := request;
                            response_json_of := response;
                            status_code_of := BAD_REQUEST |} ]))
  /\ (fst (validate request) = true ->
      find_by_registration_number (get request "identifier") = None ->
      exists response,
        validate_permit message_of legislation_date validate
          find_by_registration_number request table
        = Ok ((response, NOT_FOUND),
              table ++ [ {| request_json_of := request;
                            response_json_of := response;
                            status_code_of := NOT_FOUND |} ]))
  /\ (forall registration response status_code,
        fst (validate request) = true ->
        find_by_registration_number (get request "identifier")
        = Some registration ->
        check_permit_details message_of legislation_date request registration
        = Ok (response, status_code) ->
        validate_permit message_of legislation_date validate
          find_by_registration_number request table
        = Ok ((response, status_code),
              table ++ [ {| request_json_of := request;
                            response_json_of := response;
                            status_code_of := status_code |} ]))
  /\ (forall registration e,
        fst (validate request) = true ->
        find_by_registration_number (get request "identifier")
        = Some registration ->
        check_permit_details message_of legislation_date request registration
        = Raise e ->
        validate_permit message_of legislation_date validate
          find_by_registration_number request table
        = Raise e).
Proof.
  unfold validate_permit, create_real_time_validation_audit_record.
  destruct (validate request) as [valid errors]. cbn [fst].
  split; [|split; [|split; [|split]]].
  - intros response status_code table'.
    destruct valid; cbn [negb bind].
    + destruct (find_by_registration_number (get request "identifier")) as [registration|].
      * destruct (check_permit_details _ _ _ _) as [[r c]|e]; cbn [bind];
          [|discriminate].
        intros E. injection E as <- <- <-. reflexivity.
      * cbn [bind]. intros E. injection E as <- <- <-. reflexivity.
    + intros E. injection E as <- <- <-. reflexivity.
  - intros ->. cbn [negb bind]. eexists. reflexivity.
  - intros -> ->. cbn [negb bind]. eexists. reflexivity.
  - intros registration response status_code -> -> ->. reflexivity.
  - intros registration e -> -> ->. reflexivity.
Qed.
End OrchestratorProperties.

(** *** Substitution *)




Lemma sub_from_cons m prev c r :
  sub_from m 0 prev (c :: r)
  = match m prev (c :: r) with
    | Some (S k, repl) => repl ++ sub_from m k (Some c) r
    | _ => c :: sub_from m 0 (Some c) r
    end.
Proof. reflexivity. Qed.

Lemma sub_from_quiet m s : forall prev,
  occurs m prev s = false -> sub_from m 0 prev s = s.
Proof.
  induction s as [|c r IH]; intros prev H; [reflexivity|].
  cbn [occurs] in H. apply orb_false_iff in H as [Hh Ho].
  rewrite sub_from_cons. unfold hits in Hh.
  destruct (m prev (c :: r)) as [[[|k] repl]|]; try discriminate;
    now rewrite (IH _ Ho).
Qed.

Lemma sub_from_length m (Hm : shrinking m) s : forall k prev,
  length (sub_from m k prev s) + Nat.min k (length s) <= length s.
Proof.
  induction s as [|c r IH]; intros k prev; [simpl; lia|].
  destruct k as [|k].
  - rewrite sub_from_cons.
    destruct (m prev (c :: r)) as [[[|n] repl]|] eqn:E.
    + simpl. specialize (IH 0 (Some c)). lia.
    + apply Hm in E as [E1 E2]. rewrite length_app. simpl in *.
      specialize (IH n (Some c)). lia.
    + simpl. specialize (IH 0 (Some c)). lia.
  - simpl. specialize (IH k (Some c)). lia.
Qed.

Lemma sub_from_shrinks m (Hm : shrinking m) s : forall prev,
  occurs m prev s = true -> length (sub_from m 0 prev s) < length s.
Proof.
  induction s as [|c r IH]; intros prev H; [discriminate|].
  cbn [occurs] in H. rewrite sub_from_cons. unfold hits in H.
  destruct (m prev (c :: r)) as [[[|n] repl]|] eqn:E; simpl in H.
  - simpl. specialize (IH _ H). lia.
  - apply Hm in E as [E1 E2]. rewrite length_app. simpl in *.
    pose proof (sub_from_length m Hm r n (Some c)). lia.
  - simpl. specialize (IH _ H). lia.
Qed.

Lemma sub_length m (Hm : shrinking m) s : length (sub m s) <= length s.
Proof. pose proof (sub_from_length m Hm s 0 None). unfold sub. lia. Qed.

Lemma sub_fixed_iff m (Hm : shrinking m) s :
  length (sub m s) = length s <-> occurs m None s = false.
Proof.
  split; intros H.
  - destruct (occurs m None s) eqn:E; [|reflexivity].
    pose proof (sub_from_shrinks m Hm s None E). unfold sub in H. lia.
  - unfold sub. now rewrite sub_from_quiet.
Qed.

Lemma sub_quiet m s : occurs m None s = false -> sub m s = s.
Proof. apply sub_from_quiet. Qed.

(** run facts *)
Lemma run_le p s : run p s <= length s.
Proof.
  unfold run. induction s as [|c r IH]; simpl; [lia|].
  destruct (p c); simpl; lia.
Qed.

Lemma length_skipn_le n (s : str) : length (skipn n s) = length s - n.
Proof. apply length_skipn. Qed.

Lemma shrinking_leading_marks : shrinking leading_marks.
Proof.
  intros prev s n repl. unfold leading_marks.
  destruct prev; [discriminate|].
  pose proof (run_le is_hash_or_hyphen s) as L1.
  destruct (run is_hash_or_hyphen s) as [|k] eqn:E; [discriminate|].
  pose proof (run_le isspace (skipn (S k) s)) as L2.
  rewrite length_skipn in L2.
  remember (run isspace (skipn (S k) s)) as w.
  intros H. injection H as <- <-. cbn [length]. lia.
Qed.

Lemma shrinking_separators : shrinking separators.
Proof.
  intros prev s n repl. unfold separators.
  pose proof (run_le is_separator s) as L1.
  destruct (run is_separator s) as [|k] eqn:E; [discriminate|].
  intros H. injection H as <- <-. cbn [length]. lia.
Qed.

Lemma shrinking_leading_zeros : shrinking leading_zeros.
Proof.
  intros prev s n repl. unfold leading_zeros.
  destruct (boundary prev s); [|discriminate].
  pose proof (run_le is_zero s) as L1.
  destruct (run is_zero s) as [|z] eqn:E; [discriminate|].
  pose proof (run_le isword (skipn (S z) s)) as L2.
  rewrite length_skipn in L2.
  destruct (run isword (skipn (S z) s)) as [|w] eqn:Ew.
  - destruct z; [discriminate|]. intros H. injection H as <- <-.
    cbn [length]. lia.
  - pose proof (length_firstn (S w) (skipn (S z) s)) as L3.
    rewrite length_skipn in L3.
    remember (firstn (S w) (skipn (S z) s)) as out.
    intros H. injection H as <- <-. lia.
Qed.

Lemma starts_with_ci_length k s :
  starts_with_ci k s = true -> length k <= length s.
Proof.
  revert s. induction k as [|x k IH]; intros [|y s]; simpl; try lia; try discriminate.
  intros H. apply andb_true_iff in H as [_ H]. apply IH in H. lia.
Qed.


Lemma match_alternative_bounds a s n :
  match_alternative a s = Some n ->
  length (alternative_text a) <= n <= length s.
Proof.
  destruct a as [k|k]; simpl.
  - destruct (starts_with_ci k s) eqn:E; [|discriminate].
    intros H. injection H as <-. apply starts_with_ci_length in E. lia.
  - destruct (starts_with_ci k s) eqn:E; [|discriminate].
    apply starts_with_ci_length in E.
    pose proof (length_skipn (length k) s) as L.
    destruct (skipn (length k) s) as [|c t].
    + intros H. injection H as <-. lia.
    + simpl in L. destruct (eqc c "."); intros H; injection H as <-; lia.
Qed.

Lemma match_first_inv alts s n :
  match_first alts s = Some n ->
  exists a, In a alts /\ match_alternative a s = Some n.
Proof.
  induction alts as [|a alts IH]; simpl; [discriminate|].
  destruct (match_alternative a s) as [k|] eqn:E.
  - intros H. injection H as <-. exists a. auto.
  - intros H. destruct (IH H) as (b & Hb & Eb). exists b. auto.
Qed.

Lemma keyword_alternatives_nonempty :
  forallb (fun a => 1 <=? length (alternative_text a)) KEYWORD_ALTERNATIVES = true.
Proof. reflexivity. Qed.

Lemma shrinking_keyword : shrinking keyword.
Proof.
  intros prev s n repl. unfold keyword.
  destruct (boundary prev s); [|discriminate].
  destruct (match_first KEYWORD_ALTERNATIVES s) as [k|] eqn:E; [|discriminate].
  intros H. injection H as <- <-.
  destruct (match_first_inv _ _ _ E) as (a & Ha & Ea).
  apply match_alternative_bounds in Ea.
  pose proof keyword_alternatives_nonempty as Hne.
  rewrite forallb_forall in Hne. apply Hne, Nat.leb_le in Ha. simpl. lia.
Qed.

Lemma firstn_run p s : Forall (fun c => p c = true) (firstn (run p s) s).
Proof.
  unfold run. induction s as [|c r IH]; simpl; [constructor|].
  destruct (p c) eqn:E; simpl; constructor; assumption.
Qed.

Lemma sub_from_separators s : forall k prev,
  Forall (fun c => is_separator c = true) (firstn k s) ->
  sub_from separators k prev s = filter (fun c => negb (is_separator c)) s.
Proof.
  induction s as [|c r IH]; intros k prev H; [reflexivity|].
  destruct k as [|k].
  - rewrite sub_from_cons. unfold separators at 1. unfold run. cbn [takewhile filter].
    destruct (is_separator c) eqn:E; cbn [length negb].
    + cbn [app]. apply IH. apply firstn_run.
    + f_equal. apply IH. constructor.
  - cbn [firstn] in H. inversion H as [|? ? Hc Hr]; subst.
    cbn [sub_from filter]. rewrite Hc. cbn [negb]. apply IH, Hr.
Qed.

Lemma sub_separators s :
  sub separators s = filter (fun c => negb (is_separator c)) s.
Proof. apply sub_from_separators. constructor. Qed.

Lemma sub_separators_clean s :
  Forall (fun c => is_separator c = false) (sub separators s).
Proof.
  rewrite sub_separators. apply Forall_forall. intros c Hc.
  apply filter_In in Hc as [_ Hc]. now apply negb_true_iff.
Qed.

Lemma sub_from_Forall (P : ascii -> Prop) m
    (Hm : forall prev s n repl,
        Forall P s -> m prev s = Some (n, repl) -> Forall P repl) s :
  forall k prev, Forall P s -> Forall P (sub_from m k prev s).
Proof.
  induction s as [|c r IH]; intros k prev H; [constructor|].
  inversion H as [|? ? Hc Hr]; subst.
  destruct k as [|k]; [|apply IH, Hr].
  rewrite sub_from_cons.
  destruct (m prev (c :: r)) as [[[|n] repl]|] eqn:E.
  - constructor; [assumption | apply IH, Hr].
  - apply Forall_app. split; [exact (Hm _ _ _ _ H E) | apply IH, Hr].
  - constructor; [assumption | apply IH, Hr].
Qed.

Lemma Forall_firstn_skipn (P : ascii -> Prop) n k (s : str) :
  Forall P s -> Forall P (firstn n (skipn k s)).
Proof.
  intros H. rewrite <- (firstn_skipn k s) in H. apply Forall_app in H as [_ H].
  rewrite <- (firstn_skipn n (skipn k s)) in H. now apply Forall_app in H as [H _].
Qed.

Lemma leading_zeros_clean s :
  Forall (fun c => is_separator c = false) s ->
  Forall (fun c => is_separator c = false) (sub leading_zeros s).
Proof.
  apply sub_from_Forall. intros prev t n repl Ht. unfold leading_zeros.
  destruct (boundary prev t); [|discriminate].
  destruct (run is_zero t) as [|z]; [discriminate|].
  destruct (run isword (skipn (S z) t)) as [|w].
  - destruct z; [discriminate|]. intros H. injection H as <- <-.
    constructor; [reflexivity | constructor].
  - remember (firstn (S w) (skipn (S z) t)) as out.
    intros H. injection H as <- <-. subst out. now apply Forall_firstn_skipn.
Qed.

Lemma is_separator_upper c : is_separator (upper_char c) = is_separator c.
Proof. destruct c as [[] [] [] [] [] [] [] []]; reflexivity. Qed.

Lemma upper_char_idem c : upper_char (upper_char c) = upper_char c.
Proof. destruct c as [[] [] [] [] [] [] [] []]; reflexivity. Qed.

Lemma upper_idem s : upper (upper s) = upper s.
Proof.
  unfold upper. rewrite map_map. apply map_ext. intros c. apply upper_char_idem.
Qed.

Lemma upper_clean s :
  Forall (fun c => is_separator c = false) s ->
  Forall (fun c => is_separator c = false) (upper s).
Proof.
  intros H. unfold upper. apply Forall_map.
  eapply Forall_impl; [|exact H]. intros c Hc. cbn. now rewrite is_separator_upper.
Qed.

Lemma filtered_clean x :
  Forall (fun c => is_separator c = false) (_get_filtered_unit_number x).
Proof.
  unfold _get_filtered_unit_number.
  apply upper_clean, leading_zeros_clean, sub_separators_clean.
Qed.

Lemma filtered_upper x :
  upper (_get_filtered_unit_number x) = _get_filtered_unit_number x.
Proof. unfold _get_filtered_unit_number. apply upper_idem. Qed.

Lemma separators_quiet s :
  Forall (fun c => is_separator c = false) s -> sub separators s = s.
Proof.
  intros H. rewrite sub_separators. induction H as [|c r Hc _ IH]; [reflexivity|].
  cbn [filter]. rewrite Hc. cbn [negb]. now rewrite IH.
Qed.

Lemma length_upper s : length (upper s) = length s.
Proof. apply length_map. Qed.

(** C4, as amended: normalising a normalised unit number leaves it unchanged
    exactly when the normalised text gives the first, the second and the
    fourth pattern nothing to match: it does not start with '#', no word of
    it starts with a keyword, and no word of two or more characters in it
    starts with '0'.  (The third pattern and the upper-casing never change a
    normalised text.) *)
Theorem normaliser_fixed_point_condition x :
  _get_filtered_unit_number (_get_filtered_unit_number x)
  = _get_filtered_unit_number x
  <-> occurs leading_marks None (_get_filtered_unit_number x) = false
      /\ occurs keyword None (_get_filtered_unit_number x) = false
      /\ occurs leading_zeros None (_get_filtered_unit_number x) = false.
Proof.
  pose proof (filtered_clean x) as Hc. pose proof (filtered_upper x) as Hu.
  set (y := _get_filtered_unit_number x) in *.
  split.
  - intros H. unfold _get_filtered_unit_number in H.
    apply (f_equal (@length _)) in H. rewrite length_upper in H.
    pose proof (sub_length _ shrinking_leading_marks y) as L1.
    pose proof (sub_length _ shrinking_keyword (sub leading_marks y)) as L2.
    pose proof (sub_length _ shrinking_separators
                  (sub keyword (sub leading_marks y))) as L3.
    pose proof (sub_length _ shrinking_leading_zeros
                  (sub separators (sub keyword (sub leading_marks y)))) as L4.
    assert (Q1 : occurs leading_marks None y = false)
      by (apply (sub_fixed_iff _ shrinking_leading_marks); lia).
    rewrite (sub_quiet _ _ Q1) in *.
    assert (Q2 : occurs keyword None y = false)
      by (apply (sub_fixed_iff _ shrinking_keyword); lia).
    rewrite (sub_quiet _ _ Q2) in *.
    rewrite (separators_quiet _ Hc) in *.
    assert (Q4 : occurs leading_zeros None y = false)
      by (apply (sub_fixed_iff _ shrinking_leading_zeros); lia).
    auto.
  - intros (Q1 & Q2 & Q4). unfold _get_filtered_unit_number.
    rewrite (sub_quiet _ _ Q1), (sub_quiet _ _ Q2), (separators_quiet _ Hc),
      (sub_quiet _ _ Q4).
    exact Hu.
Qed.

(** *** Keyword removal *)




Lemma matched_from_cons m prev c r :
  matched_from m 0 prev (c :: r)
  = match m prev (c :: r) with
    | Some (S k, _) => true :: matched_from m k (Some c) r
    | _ => false :: matched_from m 0 (Some c) r
    end.
Proof. reflexivity. Qed.

Lemma sub_from_unmatched m (Hm : deleting m) s : forall k prev,
  sub_from m k prev s = unmatched s (matched_from m k prev s).
Proof.
  induction s as [|c r IH]; intros k prev; [reflexivity|].
  destruct k as [|k]; [|cbn; apply IH].
  rewrite sub_from_cons, matched_from_cons.
  destruct (m prev (c :: r)) as [[[|n] repl]|] eqn:E; cbn [unmatched].
  - now rewrite IH.
  - rewrite (Hm _ _ _ _ E). cbn [app]. apply IH.
  - now rewrite IH.
Qed.

Lemma deleting_keyword : deleting keyword.
Proof.
  intros prev s n repl. unfold keyword.
  destruct (boundary prev s); [|discriminate].
  destruct (match_first KEYWORD_ALTERNATIVES s); [|discriminate].
  intros H. now injection H as <- <-.
Qed.

Lemma matched_from_skip m s : forall k prev i,
  i < k -> i < length s -> nth i (matched_from m k prev s) false = true.
Proof.
  induction s as [|c r IH]; intros k prev i Hk Hs; [simpl in Hs; lia|].
  destruct k as [|k]; [lia|]. cbn [matched_from].
  destruct i as [|i]; [reflexivity|]. cbn [nth]. apply IH; simpl in Hs; lia.
Qed.

Lemma isword_lower c : isword (lower_char c) = isword c.
Proof. destruct c as [[] [] [] [] [] [] [] []]; reflexivity. Qed.

Lemma ci_isword x y :
  eqc (lower_char x) (lower_char y) = true -> isword x = isword y.
Proof.
  intros H. apply eqc_eq in H.
  rewrite <- (isword_lower x), <- (isword_lower y). now rewrite H.
Qed.

Lemma alternative_text_in a :
  In (alternative_text a) (alternative_texts a).
Proof. destruct a; simpl; auto. Qed.

Lemma match_alternative_text a s n :
  match_alternative a s = Some n -> starts_with_ci (alternative_text a) s = true.
Proof.
  destruct a as [k|k]; simpl; destruct (starts_with_ci k s); auto; discriminate.
Qed.

Lemma keyword_heads :
  forallb (fun a => word_at (alternative_text a)) KEYWORD_ALTERNATIVES = true.
Proof. reflexivity. Qed.

Lemma starts_with_ci_word_at k s :
  starts_with_ci k s = true -> word_at k = true -> word_at s = true.
Proof.
  destruct k as [|x k]; [discriminate|]. destruct s as [|y s]; [discriminate|].
  simpl. intros H Hx. apply andb_true_iff in H as [H _].
  now rewrite <- (ci_isword _ _ H).
Qed.

(** A hit of the keyword pattern: a word starts here with a keyword. *)
Lemma keyword_hit prev s :
  hits keyword prev s = true ->
  word_before prev = false
  /\ exists K, In K KEYWORD_TEXTS /\ starts_with_ci K s = true.
Proof.
  unfold hits, keyword. destruct (boundary prev s) eqn:Eb; [|discriminate].
  destruct (match_first KEYWORD_ALTERNATIVES s) as [n|] eqn:E; [|discriminate].
  intros _. destruct (match_first_inv _ _ _ E) as (a & Ha & Ea).
  apply match_alternative_text in Ea.
  pose proof keyword_heads as Hh. rewrite forallb_forall in Hh.
  pose proof (starts_with_ci_word_at _ _ Ea (Hh _ Ha)) as Hw.
  split.
  - unfold boundary in Eb. rewrite Hw in Eb. now destruct (word_before prev).
  - exists (alternative_text a). split; [|assumption].
    apply in_flat_map. exists a. split; [assumption | apply alternative_text_in].
Qed.

Lemma matched_head m k prev s :
  nth 0 (matched_from m k prev s) false = true -> 0 < k \/ hits m prev s = true.
Proof.
  destruct s as [|c r]; [discriminate|]. destruct k as [|k]; [|intros _; lia].
  rewrite matched_from_cons. unfold hits.
  destruct (m prev (c :: r)) as [[[|n] repl]|]; try discriminate. auto.
Qed.

Lemma matched_tail m k prev c r :
  exists b k',
    matched_from m k prev (c :: r) = b :: matched_from m k' (Some c) r
    /\ (0 < k' -> b = true).
Proof.
  destruct k as [|k]; [|exists true, k; auto].
  rewrite matched_from_cons.
  destruct (m prev (c :: r)) as [[[|n] repl]|].
  - exists false, 0. split; [reflexivity | lia].
  - exists true, n. auto.
  - exists false, 0. split; [reflexivity | lia].
Qed.

Lemma removal_starts_gen pre : forall k prev t,
  nth (length pre) (matched_from keyword k prev (pre ++ t)) false = true ->
  (pre = [] /\ 0 < k)
  \/ (exists pre' d,
        pre = pre' ++ [d]
        /\ nth (length pre') (matched_from keyword k prev (pre ++ t)) false = true)
  \/ (word_before (last_from prev pre) = false
      /\ exists K, In K KEYWORD_TEXTS /\ starts_with_ci K t = true).
Proof.
  induction pre as [|x pre IH]; intros k prev t H.
  - cbn [app length] in H. apply matched_head in H as [H|H]; [auto|].
    right; right. now apply keyword_hit.
  - cbn [app length] in *.
    destruct (matched_tail keyword k prev x (pre ++ t)) as (b & k' & E & Hb).
    rewrite E in *. cbn [nth] in H.
    destruct (IH _ _ _ H) as [[-> Hk]|[(pre' & d & -> & Hn)|Hr]].
    + right; left. exists [], x. split; [reflexivity|]. cbn. auto.
    + right; left. exists (x :: pre'), d. split; [reflexivity|]. exact Hn.
    + right; right. exact Hr.
Qed.


Lemma lower_char_idem c : lower_char (lower_char c) = lower_char c.
Proof. destruct c as [[] [] [] [] [] [] [] []]; reflexivity. Qed.

Lemma dot_lower c : eqc (lower_char c) "." = eqc c ".".
Proof. destruct c as [[] [] [] [] [] [] [] []]; reflexivity. Qed.

Lemma starts_with_ci_lower k s :
  starts_with_ci k (lower s) = starts_with_ci k s.
Proof.
  revert s. induction k as [|x k IH]; intros [|y s]; simpl; try reflexivity.
  now rewrite lower_char_idem, IH.
Qed.

Lemma match_alternative_lower a s :
  match_alternative a (lower s) = match_alternative a s.
Proof.
  destruct a as [k|k]; simpl; rewrite starts_with_ci_lower; [reflexivity|].
  destruct (starts_with_ci k s); [|reflexivity].
  unfold lower. rewrite skipn_map.
  destruct (skipn (length k) s) as [|c t]; simpl; [reflexivity|].
  now rewrite dot_lower.
Qed.

Lemma match_first_lower alts s :
  match_first alts (lower s) = match_first alts s.
Proof.
  induction alts as [|a alts IH]; simpl; [reflexivity|].
  now rewrite match_alternative_lower, IH.
Qed.




Lemma starts_with_ci_comparable A : forall B s,
  starts_with_ci A s = true -> starts_with_ci B s = true ->
  length A <= length B -> starts_with_ci A B = true.
Proof.
  induction A as [|x A IH]; intros B s HA HB HL; [reflexivity|].
  destruct B as [|y B]; [simpl in HL; lia|].
  destruct s as [|c s]; [discriminate|]. simpl in *.
  apply andb_true_iff in HA as [Hx HA]. apply andb_true_iff in HB as [Hy HB].
  apply eqc_eq in Hx, Hy. apply andb_true_iff. split.
  - apply eqc_eq. congruence.
  - apply (IH B s); auto. lia.
Qed.

Lemma starts_with_ci_app_l k1 : forall k2 s,
  starts_with_ci (k1 ++ k2) s = true ->
  starts_with_ci k1 s = true /\ starts_with_ci k2 (skipn (length k1) s) = true.
Proof.
  induction k1 as [|x k1 IH]; intros k2 s H; [auto|].
  destruct s as [|c s]; [discriminate|]. simpl in *.
  apply andb_true_iff in H as [Hx H]. apply IH in H as [H1 H2].
  now rewrite Hx, H1.
Qed.

Lemma match_alternative_own a K s :
  existsb (eqs K) (alternative_texts a) = true ->
  starts_with_ci K s = true ->
  exists n, match_alternative a s = Some n /\ length K <= n.
Proof.
  intros HK Hs. destruct a as [k|k]; simpl in HK.
  - rewrite orb_false_r in HK. apply eqs_eq in HK. subst K. simpl.
    rewrite Hs. eauto.
  - rewrite orb_false_r in HK. apply orb_true_iff in HK as [HK|HK];
      apply eqs_eq in HK; subst K; simpl.
    + rewrite Hs. destruct (skipn (length k) s) as [|c t]; [eauto|].
      destruct (eqc c "."); eauto.
    + apply starts_with_ci_app_l in Hs as [H1 H2]. rewrite H1.
      rewrite length_app. cbn [py list_ascii_of_string length].
      destruct (skipn (length k) s) as [|c t]; [discriminate|].
      cbn [py list_ascii_of_string starts_with_ci] in H2.
      apply andb_true_iff in H2 as [H2 _].
      apply eqc_eq in H2.
      assert (Hd : eqc c "." = true)
        by (rewrite <- dot_lower; apply eqc_eq; symmetry; exact H2).
      rewrite Hd. exists (S (length k)). split; [reflexivity | lia].
Qed.

Lemma match_first_covers alts : forall K s,
  reached_first alts K = true ->
  starts_with_ci K s = true ->
  exists n, match_first alts s = Some n /\ length K <= n.
Proof.
  induction alts as [|b rest IH]; intros K s HR Hs; [discriminate|].
  cbn [reached_first match_first] in *.
  destruct (existsb (eqs K) (alternative_texts b)) eqn:Eb.
  - destruct (match_alternative_own b K s Eb Hs) as (n & -> & Hn). eauto.
  - apply andb_true_iff in HR as [Hb HR].
    destruct (match_alternative b s) as [n|] eqn:Em; [|now apply IH].
    exists n. split; [reflexivity|].
    pose proof (match_alternative_bounds _ _ _ Em) as Bn.
    apply orb_true_iff in Hb as [Hb|Hb]; [|apply Nat.leb_le in Hb; lia].
    destruct (Nat.le_gt_cases (length K) (length (alternative_text b))) as [L|L];
      [lia|].
    apply match_alternative_text in Em.
    rewrite (starts_with_ci_comparable _ _ _ Em Hs) in Hb by lia. discriminate.
Qed.

Lemma keywords_reached_first :
  forallb (reached_first KEYWORD_ALTERNATIVES) KEYWORD_TEXTS = true.
Proof. vm_compute. reflexivity. Qed.

Lemma starts_with_ci_same K : forall occ post,
  same_text_ci occ K -> starts_with_ci K (occ ++ post) = true.
Proof.
  unfold same_text_ci.
  induction K as [|x K IH]; intros occ post H; [reflexivity|].
  destruct occ as [|c occ]; [discriminate|]. simpl in *.
  injection H as Hc H. rewrite Hc, (IH _ _ H).
  unfold eqc. now rewrite Ascii.eqb_refl.
Qed.

Lemma same_text_ci_length occ K : same_text_ci occ K -> length occ = length K.
Proof.
  intros H. apply (f_equal (@length _)) in H. unfold lower in H.
  now rewrite !length_map in H.
Qed.

(** A keyword at the head of the text: the pattern matches there, and
    takes the keyword at least. *)
Lemma keyword_covers K occ post :
  In K KEYWORD_TEXTS -> same_text_ci occ K ->
  exists n, match_first KEYWORD_ALTERNATIVES (occ ++ post) = Some n
            /\ length occ <= n.
Proof.
  intros HK Ho. rewrite (same_text_ci_length _ _ Ho).
  apply match_first_covers.
  - pose proof keywords_reached_first as T. rewrite forallb_forall in T. auto.
  - now apply starts_with_ci_same.
Qed.

Lemma last_from_app a : forall p b,
  last_from p (a ++ b) = last_from (last_from p a) b.
Proof. induction a as [|x a IH]; intros p b; [reflexivity | apply IH]. Qed.

Lemma last_from_nonempty q : forall p p', q <> [] -> last_from p q = last_from p' q.
Proof. destruct q as [|c q]; [contradiction | reflexivity]. Qed.

Lemma starts_with_ci_last L : forall q t,
  starts_with_ci L (q ++ t) = true -> q <> [] -> length q <= length L ->
  word_before (last_from None q) = isword (nth (length q - 1) L " "%char).
Proof.
  induction L as [|x L IH]; intros q t H Hq HL.
  - destruct q; [contradiction | simpl in HL; lia].
  - destruct q as [|c q]; [contradiction|]. cbn [app starts_with_ci] in H.
    apply andb_true_iff in H as [Hc H].
    destruct q as [|d q].
    + cbn. symmetry. now apply ci_isword.
    + change (last_from None (c :: d :: q)) with (last_from None (d :: q)).
      rewrite (IH (d :: q) t H) by (try discriminate; simpl in *; lia).
      cbn [length]. replace (S (S (length q)) - 1) with (S (S (length q) - 1)) by lia.
      reflexivity.
Qed.

Lemma starts_with_ci_rest L : forall q t,
  starts_with_ci L (q ++ t) = true -> length q <= length L ->
  starts_with_ci (skipn (length q) L) t = true.
Proof.
  induction L as [|x L IH]; intros q t H HL.
  - destruct q; [exact H | simpl in HL; lia].
  - destruct q as [|c q]; [exact H|]. cbn [app starts_with_ci] in H.
    apply andb_true_iff in H as [_ H]. cbn [length skipn].
    apply IH; [exact H | simpl in HL; lia].
Qed.

Lemma match_alternative_at_most a s n :
  match_alternative a s = Some n -> n <= S (length (alternative_text a)).
Proof.
  destruct a as [k|k]; simpl; destruct (starts_with_ci k s); try discriminate.
  - intros H. injection H as <-. lia.
  - destruct (skipn (length k) s) as [|c t]; [|destruct (eqc c ".")];
      intros H; injection H as <-; lia.
Qed.

Lemma keywords_rest_covers :
  forallb (fun a => forallb (rest_covers a) (seq 1 (length (alternative_text a))))
    KEYWORD_ALTERNATIVES = true.
Proof. vm_compute. reflexivity. Qed.

(** A match that is under way when a word starts takes in every keyword
    that stands there. *)
Lemma running_match_covers q t k K :
  q <> [] ->
  match_first KEYWORD_ALTERNATIVES (q ++ t) = Some (length q + k) ->
  0 < k ->
  word_before (last_from None q) = false ->
  In K KEYWORD_TEXTS -> starts_with_ci K t = true ->
  length K <= k.
Proof.
  intros Hq Hm Hk Hw HK Ht.
  destruct (match_first_inv _ _ _ Hm) as (a & Ha & Em).
  pose proof (match_alternative_bounds _ _ _ Em) as [B1 _].
  pose proof (match_alternative_at_most _ _ _ Em) as B2.
  apply match_alternative_text in Em.
  assert (Hj : length q <= length (alternative_text a)) by lia.
  rewrite (starts_with_ci_last _ _ _ Em Hq Hj) in Hw.
  pose proof (starts_with_ci_rest _ _ _ Em Hj) as Hr.
  pose proof keywords_rest_covers as T. rewrite forallb_forall in T.
  specialize (T a Ha). rewrite forallb_forall in T.
  assert (Hin : In (length q) (seq 1 (length (alternative_text a)))).
  { apply in_seq. destruct q; [contradiction|]. simpl in *. lia. }
  specialize (T _ Hin). unfold rest_covers in T. rewrite Hw in T.
  cbn [orb] in T. rewrite forallb_forall in T. specialize (T K HK).
  apply orb_true_iff in T as [T|T]; [|apply Nat.leb_le in T; lia].
  destruct (Nat.le_gt_cases (length K) (length (alternative_text a) - length q))
    as [L|L]; [lia|].
  rewrite (starts_with_ci_comparable _ _ _ Hr Ht) in T; [discriminate|].
  rewrite length_skipn. lia.
Qed.

Lemma matched_from_hit m prev s n repl i :
  m prev s = Some (n, repl) -> i < n -> i < length s ->
  nth i (matched_from m 0 prev s) false = true.
Proof.
  intros E Hn Hs. destruct s as [|c r]; [simpl in Hs; lia|].
  rewrite matched_from_cons, E. destruct n as [|n]; [lia|].
  destruct i as [|i]; [reflexivity|]. cbn [nth].
  apply matched_from_skip; simpl in Hs; lia.
Qed.

Lemma keyword_text_heads : forallb word_at KEYWORD_TEXTS = true.
Proof. reflexivity. Qed.

Lemma keyword_removed_gen K occ post pre : forall k prev q,
  k = 0
  \/ (q <> [] /\ last_from None q = prev
      /\ match_first KEYWORD_ALTERNATIVES (q ++ pre ++ occ ++ post)
         = Some (length q + k)) ->
  word_before (last_from prev pre) = false ->
  In K KEYWORD_TEXTS -> same_text_ci occ K ->
  forall i, i < length occ ->
    nth (length pre + i) (matched_from keyword k prev (pre ++ occ ++ post)) false
    = true.
Proof.
  induction pre as [|x pre IH]; intros k prev q Inv Hw HK Ho i Hi.
  - cbn [app length last_from] in *.
    pose proof (starts_with_ci_same K occ post Ho) as Hs.
    assert (Hlen : i < length (occ ++ post)) by (rewrite length_app; lia).
    destruct Inv as [-> | (Hq & Hl & Hm)].
    + destruct (keyword_covers K occ post HK Ho) as (n & Hn & Hcov).
      apply (matched_from_hit keyword prev _ n []); [|lia|exact Hlen].
      unfold keyword, boundary. rewrite Hw.
      pose proof keyword_text_heads as Hh. rewrite forallb_forall in Hh.
      rewrite (starts_with_ci_word_at _ _ Hs (Hh _ HK)). cbn [xorb].
      now rewrite Hn.
    + destruct k as [|k]; [| ].
      * (* the invariant with k = 0 is the first case *)
        destruct (keyword_covers K occ post HK Ho) as (n & Hn & Hcov).
        apply (matched_from_hit keyword prev _ n []); [|lia|exact Hlen].
        unfold keyword, boundary. rewrite Hw.
        pose proof keyword_text_heads as Hh. rewrite forallb_forall in Hh.
        rewrite (starts_with_ci_word_at _ _ Hs (Hh _ HK)). cbn [xorb].
        now rewrite Hn.
      * subst prev.
        pose proof (running_match_covers q _ (S k) K Hq Hm ltac:(lia) Hw HK Hs) as Hc.
        rewrite (same_text_ci_length _ _ Ho) in Hi.
        apply matched_from_skip; [lia | exact Hlen].
  - cbn [app length last_from] in *. cbn [Nat.add].
    destruct k as [|k].
    + rewrite matched_from_cons.
      destruct (keyword prev (x :: pre ++ occ ++ post)) as [[[|n] repl]|] eqn:E;
        cbn [nth].
      * apply (IH 0 (Some x) []); auto.
      * apply (IH n (Some x) [x]); auto. right.
        split; [discriminate|]. split; [reflexivity|].
        cbn [app length]. unfold keyword in E.
        destruct (boundary _ _); [|discriminate E].
        destruct (match_first KEYWORD_ALTERNATIVES (x :: pre ++ occ ++ post))
          as [n'|]; [|discriminate E].
        injection E as -> _. reflexivity.
      * apply (IH 0 (Some x) []); auto.
    + cbn [matched_from nth]. destruct Inv as [Inv | (Hq & Hl & Hm)]; [discriminate Inv|].
      apply (IH k (Some x) (q ++ [x])); auto. right.
      split; [now destruct q|]. split; [now rewrite last_from_app|].
      rewrite <- app_assoc, length_app. cbn [app length].
      rewrite Hm. f_equal. lia.
Qed.

Lemma keyword_removed K occ post pre :
  In K KEYWORD_TEXTS -> same_text_ci occ K -> at_word_start pre ->
  forall i, length pre <= i < length pre + length occ ->
    removed keyword (pre ++ occ ++ post) i.
Proof.
  intros HK Ho Hw i Hi. unfold removed, matched.
  replace i with (length pre + (i - length pre)) by lia.
  apply (keyword_removed_gen K occ post pre 0 None []); auto. lia.
Qed.

Lemma matched_from_inside m t : forall k prev i,
  nth i (matched_from m k prev t) false = true ->
  i < k
  \/ exists j n repl,
       j <= i < j + S n
       /\ m (last_from prev (firstn j t)) (skipn j t) = Some (S n, repl).
Proof.
  induction t as [|c r IH]; intros k prev i H.
  - destruct i; discriminate H.
  - destruct k as [|k].
    + rewrite matched_from_cons in H.
      destruct (m prev (c :: r)) as [[[|n] repl]|] eqn:E.
      * destruct i as [|i]; [discriminate H|]. cbn [nth] in H.
        destruct (IH _ _ _ H) as [Hk|(j & n & repl' & Hj & Ej)]; [lia|].
        right. exists (S j), n, repl'. split; [lia | exact Ej].
      * destruct i as [|i].
        -- right. exists 0, n, repl. split; [lia | exact E].
        -- cbn [nth] in H.
           destruct (IH _ _ _ H) as [Hk|(j & n' & repl' & Hj & Ej)].
           ++ right. exists 0, n, repl. split; [lia | exact E].
           ++ right. exists (S j), n', repl'. split; [lia | exact Ej].
      * destruct i as [|i]; [discriminate H|]. cbn [nth] in H.
        destruct (IH _ _ _ H) as [Hk|(j & n & repl' & Hj & Ej)]; [lia|].
        right. exists (S j), n, repl'. split; [lia | exact Ej].
    + cbn [matched_from] in H. destruct i as [|i]; [left; lia|].
      cbn [nth] in H.
      destruct (IH _ _ _ H) as [Hk|(j & n & repl' & Hj & Ej)]; [left; lia|].
      right. exists (S j), n, repl'. split; [lia | exact Ej].
Qed.

Lemma starts_with_ci_firstn k : forall s,
  starts_with_ci k s = true -> same_text_ci (firstn (length k) s) k.
Proof.
  unfold same_text_ci.
  induction k as [|x k IH]; intros s H; [reflexivity|].
  destruct s as [|y s]; [discriminate|]. cbn in H.
  apply andb_true_iff in H as [Hc H]. apply eqc_eq in Hc.
  specialize (IH _ H). unfold lower in IH |- *.
  cbn [length firstn map]. now rewrite IH, Hc.
Qed.

Lemma firstn_succ (s : str) : forall n c r,
  skipn n s = c :: r -> firstn (S n) s = firstn n s ++ [c].
Proof.
  induction s as [|x s IH]; intros n c r H.
  - destruct n; discriminate H.
  - destruct n as [|n].
    + cbn in H. injection H as -> ->. reflexivity.
    + cbn [skipn] in H. cbn [firstn]. rewrite (IH _ _ _ H) at 1. reflexivity.
Qed.

(** What an alternative matches is one of its texts. *)
Lemma match_alternative_occurrence a s n :
  match_alternative a s = Some n ->
  exists K, In K (alternative_texts a) /\ same_text_ci (firstn n s) K.
Proof.
  destruct a as [k|k]; cbn [match_alternative alternative_texts].
  - destruct (starts_with_ci k s) eqn:E; [|discriminate].
    intros H. injection H as <-. exists k. split; [now left|].
    now apply starts_with_ci_firstn.
  - destruct (starts_with_ci k s) eqn:E; [|discriminate].
    pose proof (starts_with_ci_firstn _ _ E) as Hk.
    destruct (skipn (length k) s) as [|c r] eqn:Es.
    + intros H. injection H as <-. exists k. split; [now left | exact Hk].
    + destruct (eqc c ".") eqn:Ec; intros H; injection H as <-.
      * exists (k ++ py "."). split; [right; now left|].
        rewrite (firstn_succ _ _ _ _ Es). apply eqc_eq in Ec. subst c.
        unfold same_text_ci, lower in Hk |- *. rewrite !map_app.
        rewrite Hk. reflexivity.
      * exists k. split; [now left | exact Hk].
Qed.

(** A match of the keyword pattern is a keyword at the start of a word. *)
Lemma keyword_match prev s n repl :
  keyword prev s = Some (S n, repl) ->
  word_before prev = false
  /\ S n <= length s
  /\ exists K, In K KEYWORD_TEXTS /\ same_text_ci (firstn (S n) s) K.
Proof.
  intros H.
  assert (Hh : hits keyword prev s = true) by (unfold hits; now rewrite H).
  apply keyword_hit in Hh as [Hw _]. split; [exact Hw|].
  unfold keyword in H. destruct (boundary prev s); [|discriminate].
  destruct (match_first KEYWORD_ALTERNATIVES s) as [m|] eqn:E; [|discriminate].
  injection H as -> _.
  destruct (match_first_inv _ _ _ E) as (a & Ha & Ea).
  split; [apply (match_alternative_bounds _ _ _ Ea)|].
  destruct (match_alternative_occurrence _ _ _ Ea) as (K & HK & Ho).
  exists K. split; [|exact Ho]. apply in_flat_map. exists a. auto.
Qed.

Lemma removed_in_occurrence s i :
  removed keyword s i ->
  exists pre occ post K,
    s = pre ++ occ ++ post /\ In K KEYWORD_TEXTS /\ same_text_ci occ K
    /\ at_word_start pre /\ length pre <= i < length pre + length occ.
Proof.
  unfold removed, matched. intros H.
  destruct (matched_from_inside _ _ _ _ _ H) as [Hk|(j & n & repl & Hj & E)];
    [lia|].
  destruct (keyword_match _ _ _ _ E) as (Hw & Hn & K & HK & Ho).
  assert (Lj : j <= length s).
  { destruct (Nat.le_gt_cases j (length s)) as [L|L]; [exact L|].
    rewrite skipn_all2 in Hn by lia. cbn in Hn. lia. }
  exists (firstn j s), (firstn (S n) (skipn j s)), (skipn (S n) (skipn j s)), K.
  split; [now rewrite !firstn_skipn|]. split; [exact HK|]. split; [exact Ho|].
  split; [exact Hw|].
  rewrite !length_firstn. rewrite (Nat.min_l j) by lia.
  rewrite (Nat.min_l (S n)) by lia. lia.
Qed.

(** C3, as amended: the keyword pattern removes a keyword, letters compared
    without case, exactly where it stands at the start of a word, whether
    the word ends there or goes on (a keyword that is the beginning of a
    longer word is removed from it).  A character is removed if and only if
    it lies in an occurrence of a keyword that begins at the start of a
    word; every run of removed characters begins at the start of a word
    where a keyword stands, so that a keyword inside a word, after its first
    character, starts no removal.  The text left is the text outside the
    matches. *)
Theorem keywords_removed_at_word_starts :
  (forall s, sub keyword s = unmatched s (matched keyword s))
  /\ (forall s i,
        removed keyword s i
        <-> exists pre occ post K,
              s = pre ++ occ ++ post /\ In K KEYWORD_TEXTS
              /\ same_text_ci occ K /\ at_word_start pre
              /\ length pre <= i < length pre + length occ)
  /\ (forall pre t,
        removed keyword (pre ++ t) (length pre) ->
        (exists pre' d,
            pre = pre' ++ [d] /\ removed keyword (pre ++ t) (length pre'))
        \/ (at_word_start pre
            /\ exists K, In K KEYWORD_TEXTS /\ starts_with_ci K t = true)).
Proof.
  split; [|split].
  - intros s. apply (sub_from_unmatched keyword deleting_keyword).
  - intros s i. split; [apply removed_in_occurrence|].
    intros (pre & occ & post & K & -> & HK & Ho & Hw & Hi).
    now apply (keyword_removed K).
  - intros pre t H. unfold removed, matched in *.
    destruct (removal_starts_gen pre 0 None t H) as [[_ Hk]|[Hp|Hs]];
      [lia | now left | now right].
Qed.

(** *** Examples, instances and counterexamples *)

Example keyword_texts_listed :
  KEYWORD_TEXTS
  = [ py "Suite"; py "Unit"; py "SL"; py "Strata Lot"; py "Room"; py "Lot";
      py "RM"; py "Cabin"; py "Bldg"; py "ste"; py "Nbr"; py "Unt";
      py "Apartment"; py "Apt"; py "Number"; py "Num"; py "Floor"; py "Flr";
      py "Fl"; py "BUILDING"; py "No"; py "No." ].
Proof. reflexivity. Qed.

(** The pattern finds a leading mark exactly in a text that starts with one. *)
Lemma occurs_leading_marks s :
  occurs leading_marks None s
  = match s with c :: _ => is_hash_or_hyphen c | [] => false end.
Proof.
  destruct s as [|c r]; [reflexivity|]. cbn [occurs].
  assert (Q : forall t p, occurs leading_marks (Some p) t = false).
  { induction t as [|x t IH]; intros p; [reflexivity|]. cbn [occurs].
    now rewrite IH. }
  rewrite Q, orb_false_r. unfold hits, leading_marks, run.
  cbn [takewhile]. destruct (is_hash_or_hyphen c); reflexivity.
Qed.

(** "Flat" loses its first two letters to the keyword "Fl"; as a
    whole-word pattern would have it, the word would stay. *)
Lemma keyword_prefix_of_a_word_is_removed :
  sub keyword (py "Flat") = py "at"
  /\ sub keyword_whole_word (py "Flat") = py "Flat"
  /\ _get_filtered_unit_number (py "Flat") = py "AT".
Proof. repeat split. Qed.

Lemma keywords_removed_at_word_starts_witness :
  sub keyword (py "Unit12 Flat") = py "12 at"
  /\ removed keyword (py "Unit12 Flat") 7.
Proof.
  destruct keywords_removed_at_word_starts as (H0 & H1 & _).
  split; [rewrite H0; reflexivity|].
  apply (proj2 (H1 (py "Unit12 Flat") 7)).
  exists (py "Unit12 "), (py "Fl"), (py "at"), (py "Fl").
  split; [reflexivity|].
  split; [unfold KEYWORD_TEXTS; simpl; tauto|].
  split; [reflexivity|]. split; [reflexivity|]. simpl. lia.
Defined.

(** "Unit #5" normalises to "#5", and "#5" to "5". *)
Lemma normalising_twice_differs :
  _get_filtered_unit_number (py "Unit #5") = py "#5"
  /\ _get_filtered_unit_number (_get_filtered_unit_number (py "Unit #5"))
     = py "5".
Proof. split; reflexivity. Qed.

Lemma normaliser_fixed_point_witness :
  _get_filtered_unit_number (_get_filtered_unit_number (py "Suite 4B"))
  = _get_filtered_unit_number (py "Suite 4B").
Proof.
  apply (proj2 (normaliser_fixed_point_condition (py "Suite 4B"))).
  repeat split.
Defined.

Lemma sample_host_case :
  active_host_case sample_request (host_registration ACTIVE sample_address)
    sample_address_json sample_address.
Proof. repeat split. Qed.

Lemma elsewhere_host_case :
  active_host_case sample_request (host_registration ACTIVE address_elsewhere)
    sample_address_json address_elsewhere.
Proof. repeat split. Qed.

Lemma prefix_host_case :
  active_host_case request_of_prefix (host_registration ACTIVE address_of_prefix)
    claim_of_prefix address_of_prefix.
Proof. repeat split. Qed.

Lemma suite_room_case :
  active_host_case request_of_suite (host_registration ACTIVE address_of_room)
    claim_of_suite address_of_room.
Proof. repeat split. Qed.

Lemma sample_strata_case :
  active_strata_case sample_request sample_strata sample_address_json
    sample_hotel.
Proof. repeat split. Qed.

(** The sample claim against the permit of the same address: nothing is
    reported on the unit number.  Against a permit elsewhere, "4B" claimed
    and "7" on file: the mismatch is reported. *)
Lemma host_unit_number_check_witness :
  (exists outcome,
     check_permit_details sample_message sample_date sample_request
       (host_registration ACTIVE sample_address)
     = Ok outcome
     /\ ~ reports sample_message outcome UNIT_NUMBER_MISMATCH)
  /\ (exists outcome,
        check_permit_details sample_message sample_date sample_request
          (host_registration ACTIVE address_elsewhere)
        = Ok outcome
        /\ reports sample_message outcome UNIT_NUMBER_MISMATCH).
Proof.
  split.
  - destruct (host_unit_number_check sample_message sample_date _ _ _ _
                sample_host_case) as (outcome & E & Hboth & _).
    exists outcome. split; [exact E|].
    intros Hr.
    apply (Hboth (py "4B") (py "4B")) in Hr;
      [apply Hr; reflexivity | reflexivity | reflexivity
      | discriminate | discriminate].
  - destruct (host_unit_number_check sample_message sample_date _ _ _ _
                elsewhere_host_case) as (outcome & E & Hboth & _).
    exists outcome. split; [exact E|].
    apply (Hboth (py "4B") (py "7"));
      [reflexivity | reflexivity | discriminate | discriminate |].
    intros H. vm_compute in H. discriminate H.
Defined.

(** "V8V1V1" against "V8V 1V2": the first four characters agree, and
    nothing is reported.  "V8V 1V1" against "V9A 1A1": the mismatch is
    reported. *)
Lemma host_postal_code_check_witness :
  (exists outcome,
     check_permit_details sample_message sample_date request_of_prefix
       (host_registration ACTIVE address_of_prefix)
     = Ok outcome
     /\ ~ reports sample_message outcome POSTAL_CODE_MISMATCH)
  /\ (exists outcome,
        check_permit_details sample_message sample_date sample_request
          (host_registration ACTIVE address_elsewhere)
        = Ok outcome
        /\ reports sample_message outcome POSTAL_CODE_MISMATCH).
Proof.
  split.
  - destruct (host_postal_code_check sample_message sample_date _ _ _ _
                prefix_host_case) as (outcome & E & Hno & _).
    exists outcome. split; [exact E|].
    apply Hno. right. split; [vm_compute; lia | reflexivity].
  - destruct (host_postal_code_check sample_message sample_date _ _ _ _
                elsewhere_host_case) as (outcome & E & _ & Hyes).
    exists outcome. split; [exact E|].
    apply Hyes. intros [H|[_ H]]; vm_compute in H; discriminate H.
Defined.

(** "Suite" against "Room": both normalise to the empty text. *)
Lemma units_normalised_to_empty_agree_witness :
  exists errors,
    check_permit_details sample_message sample_date request_of_suite
      (host_registration ACTIVE address_of_room)
    = Ok (respond sample_message sample_date request_of_suite
            (host_registration ACTIVE address_of_room) errors)
    /\ ~ In UNIT_NUMBER_MISMATCH errors.
Proof.
  destruct (units_normalised_to_empty_agree sample_message sample_date _ _ _ _
              suite_room_case) as (errors & E & Hempty & _).
  exists errors. split; [exact E|].
  apply (Hempty (py "Suite") (py "Room"));
    [reflexivity | reflexivity | discriminate | discriminate
    | reflexivity | reflexivity].
Defined.

(** An expired permit: the response is the request with its status. *)
Lemma inactive_permit_short_circuit_witness :
  exists response,
    check_permit_details sample_message sample_date sample_request
      (host_registration EXPIRED address_without_postal_code)
    = Ok (response, OK)
    /\ get response "status" = Some (VScalar (SStr (py "EXPIRED"))).
Proof.
  destruct (inactive_permit_short_circuit sample_message sample_date
              sample_request
              (host_registration EXPIRED address_without_postal_code))
    as (response & E & _ & Hs & _); [discriminate|].
  exists response. split; [exact E | exact Hs].
Defined.

(** The response to a request on an expired permit holds the identifier and
    the address of the request besides the status. *)
Lemma inactive_response_carries_the_request :
  check_permit_details sample_message sample_date sample_request
    (host_registration EXPIRED sample_address)
  = Ok (sample_request ++ [ ("status"%string, VScalar (SStr (py "EXPIRED"))) ],
        OK)
  /\ keys (sample_request ++ [ ("status"%string, VScalar (SStr (py "EXPIRED"))) ])
     = [ "identifier"; "address"; "status" ]%string.
Proof. split; reflexivity. Qed.



(** The claim matches the third building: the search ends there, and the
    fourth building, which has no address on file, is not looked at. *)
Lemma strata_first_match_wins_witness :
  check_permit_details sample_message sample_date sample_request sample_strata
  = Ok (set (set sample_request "status" (VScalar (SStr (py "ACTIVE"))))
          "validUntil" (VScalar (SStr (sample_date 0%Z))),
        OK).
Proof.
  apply (proj1 (strata_first_match_wins sample_message sample_date _ _ _ _
                  sample_strata_case)
           [oak_street; pine_street; main_street_elsewhere] main_street
           [address_not_on_file]).
  - reflexivity.
  - repeat constructor.
    + exists (py "1-10 Oak St"). split; [reflexivity|]. left.
      intros [H|H]; discriminate H.
    + exists (py "20 Pine St"). split; [reflexivity|]. left.
      intros [H|H]; discriminate H.
    + exists (py "123 Main St"). split; [reflexivity|]. right.
      exists (py "V9A 1A1"). split; [reflexivity|]. intros H; discriminate H.
  - exists (py "5-123 Main St"), (py "v8v1z9").
    repeat split. left. reflexivity.
Defined.

(** An address line with a TAB after the number: its first whitespace
    token is "12", the number claimed, and the postal codes agree, yet the
    matcher answers ADDRESS_MISMATCH, for it cuts the line at a SPACE. *)
Lemma tab_after_street_number_is_no_match :
  stated_candidate_number tabbed_line = strata_claim_number claim_of_12
  /\ prefix_agrees claim_of_12 (py "V8V 1V1")
  /\ candidate_number tabbed_line = py "12" ++ [TAB] ++ py "Main"
  /\ check_permit_details sample_message sample_date request_of_12
       (strata_registration ACTIVE tabbed_address [])
     = Ok (set request_of_12 "errors"
             (VList [ error_entry sample_message ADDRESS_MISMATCH ]),
           BAD_REQUEST).
Proof. repeat split. Qed.

(** No postal code claimed, two spaces on file: the codes match. *)
Lemma strata_postal_prefix_without_minimum_witness :
  candidate_matches (Some (VObj claim_without_postal_code))
    (strata_claim_number claim_without_postal_code)
    (split_space_first (strata_claim_number claim_without_postal_code))
    address_with_blank_postal_code
  = Ok true.
Proof.
  destruct (strata_postal_prefix_without_minimum claim_without_postal_code
              address_with_blank_postal_code (py "12 Main St") (py "  "))
    as (verdict & E & _ & _ & Hblank);
    [reflexivity | reflexivity | reflexivity | left; reflexivity |].
  rewrite E. f_equal. apply Hblank; [reflexivity | repeat constructor].
Defined.

(** No postal code claimed, a TAB on file: whitespace only, and no match. *)
Lemma tab_postal_code_is_no_match :
  forallb isspace [TAB] = true
  /\ candidate_matches (Some (VObj claim_without_postal_code))
       (strata_claim_number claim_without_postal_code)
       (split_space_first (strata_claim_number claim_without_postal_code))
       address_with_tab_postal_code
     = Ok false
  /\ check_permit_details sample_message sample_date request_without_postal_code
       (strata_registration ACTIVE address_with_tab_postal_code [])
     = Ok (set request_without_postal_code "errors"
             (VList [ error_entry sample_message ADDRESS_MISMATCH ]),
           BAD_REQUEST).
Proof. repeat split. Qed.

(** A valid request on the sample permit: one row, with the request, the
    response and the status code. *)
Lemma audit_record_of_every_returning_invocation_witness :
  validate_permit sample_message sample_date accept_all
    (registry_of (host_registration ACTIVE sample_address)) sample_request []
  = Ok ((sample_request
           ++ [ ("status"%string, VScalar (SStr (py "ACTIVE")));
                ("validUntil"%string, VScalar (SStr (py "0"))) ],
         OK),
        [ {| request_json_of := sample_request;
             response_json_of :=
               sample_request
                 ++ [ ("status"%string, VScalar (SStr (py "ACTIVE")));
                      ("validUntil"%string, VScalar (SStr (py "0"))) ];
             status_code_of := OK |} ]).
Proof.
  apply (proj1 (proj2 (proj2 (proj2
           (audit_record_of_every_returning_invocation sample_message
              sample_date accept_all
              (registry_of (host_registration ACTIVE sample_address))
              sample_request []))))
           (host_registration ACTIVE sample_address));
    reflexivity.
Defined.

(** A valid request on a permit with no postal code: the exception of the
    matcher leaves [validate_permit], and no row is written. *)
Lemma no_audit_record_when_the_matcher_raises :
  validate_permit sample_message sample_date accept_all
    (registry_of (host_registration ACTIVE address_without_postal_code))
    sample_request []
  = Raise AttributeError.
Proof. reflexivity. Qed.

(** The other endings: a refused request, and an unknown permit. *)
Example audit_of_a_refused_request :
  validate_permit sample_message sample_date refuse_all empty_registry
    sample_request []
  = Ok (([ ("errors"%string,
            VList [ [ ("message"%string, SStr (py "invalid")) ] ]) ],
         BAD_REQUEST),
        [ {| request_json_of := sample_request;
             response_json_of :=
               [ ("errors"%string,
                  VList [ [ ("message"%string, SStr (py "invalid")) ] ]) ];
             status_code_of := BAD_REQUEST |} ]).
Proof. reflexivity. Qed.

Example audit_of_an_unknown_permit :
  validate_permit sample_message sample_date accept_all empty_registry
    sample_request []
  = Ok (([ ("errors"%string,
            VList [ error_entry sample_message PERMIT_NOT_FOUND ]) ],
         NOT_FOUND),
        [ {| request_json_of := sample_request;
             response_json_of :=
               [ ("errors"%string,
                  VList [ error_entry sample_message PERMIT_NOT_FOUND ]) ];
             status_code_of := NOT_FOUND |} ]).
Proof. reflexivity. Qed.

(** The examples of the specification. *)
Example host_exact_match :
  check_permit_details sample_message sample_date sample_request
    (host_registration ACTIVE sample_address)
  = Ok (sample_request
          ++ [ ("status"%string, VScalar (SStr (py "ACTIVE")));
               ("validUntil"%string, VScalar (SStr (py "0"))) ],
        OK).
Proof. reflexivity. Qed.

Example host_unit_mismatch :
  host_errors
    (Some (VObj [ ("streetNumber"%string, SStr (py "123"));
                  ("postalCode"%string, SStr (py "V8V1V1"));
                  ("unitNumber"%string, SStr (py "Suite 5")) ]))
    (host_registration ACTIVE
       {| street_number := Some (py "123");
          unit_number := Some (py "Unit 4");
          postal_code := Some (py "V8V 1V2");
          street_address := None |})
  = Ok [ UNIT_NUMBER_MISMATCH ].
Proof. reflexivity. Qed.

(** *** Responses of the matcher *)

Section ResponseProperties.
Variable message_of : ErrorMessage -> str.
Variable legislation_date : datetime -> str.

Lemma street_flagged claim permit :
  In STREET_NUMBER_MISMATCH
    (flag (street_mismatch claim permit) STREET_NUMBER_MISMATCH
     ++ flag (postal_mismatch claim permit) POSTAL_CODE_MISMATCH
     ++ flag (unit_mismatch claim permit) UNIT_NUMBER_MISMATCH)
  <-> street_mismatch claim permit = true.
Proof.
  rewrite !in_app_iff, !in_flag. split.
  - intros [[H _]|[[_ H]|[_ H]]]; try discriminate; assumption.
  - intros H; left; auto.
Qed.

(** X1: the street-number check of an active HOST registration.  The
    response reports STREET_NUMBER_MISMATCH, with the status code
    BAD_REQUEST and the entry of the error in its list of errors, exactly
    when the permit has a non-empty street number that, in lower case and
    trimmed of whitespace, is neither the claimed street number (the text
    [str] gives of it, in lower case and trimmed) nor the part of that
    before its first SPACE.  A permit with no street number, or an empty
    one, is never flagged. *)
Theorem host_street_number_check request registration claim permit :
  active_host_case request registration claim permit ->
  exists outcome,
    check_permit_details message_of legislation_date request registration
    = Ok outcome
    /\ (reports message_of outcome STREET_NUMBER_MISMATCH
        <-> exists n,
              street_number permit = Some n /\ n <> []
              /\ strip (lower n) <> strip (lower (claim_str claim "streetNumber"))
              /\ strip (lower n)
                 <> split_space_first
                      (strip (lower (claim_str claim "streetNumber")))).
Proof.
  intros H. eexists.
  split; [exact (check_host message_of legislation_date _ _ _ _ H)|].
  rewrite respond_reports, street_flagged. unfold street_mismatch.
  destruct (street_number permit) as [n|].
  - split.
    + intros E. apply andb_true_iff in E as [Hn Hp].
      exists n. split; [reflexivity|].
      split; [destruct n; [discriminate | discriminate]|].
      apply negb_true_iff in Hp. unfold in_pair in Hp.
      apply orb_false_iff in Hp as [H1 H2]. now rewrite eqs_neq in H1, H2.
    + intros (m & Em & Hm & H1 & H2). injection Em as <-.
      apply andb_true_iff. split.
      * destruct n; [contradiction | reflexivity].
      * apply negb_true_iff. unfold in_pair. apply orb_false_iff.
        now rewrite !eqs_neq.
  - split; [discriminate|]. intros (m & Em & _). discriminate.
Qed.

(** X2: the three checks of the HOST branch all run, none stops the
    others.  When one of them finds something, the status code is
    BAD_REQUEST and the list under the key errors of the response holds the
    entries of the findings among STREET_NUMBER_MISMATCH,
    POSTAL_CODE_MISMATCH and UNIT_NUMBER_MISMATCH, in that order, each at
    most once, and nothing else; when none does, the status code is OK and
    the key errors is as in the request. *)
Theorem host_checks_all_run request registration claim permit :
  active_host_case request registration claim permit ->
  exists response status_code,
    check_permit_details message_of legislation_date request registration
    = Ok (response, status_code)
    /\ (filter (host_finding claim permit)
          [STREET_NUMBER_MISMATCH; POSTAL_CODE_MISMATCH; UNIT_NUMBER_MISMATCH]
        <> [] ->
        status_code = BAD_REQUEST
        /\ get response "errors"
           = Some (VList
                     (map (error_entry message_of)
                        (filter (host_finding claim permit)
                           [STREET_NUMBER_MISMATCH; POSTAL_CODE_MISMATCH;
                            UNIT_NUMBER_MISMATCH]))))
    /\ (filter (host_finding claim permit)
          [STREET_NUMBER_MISMATCH; POSTAL_CODE_MISMATCH; UNIT_NUMBER_MISMATCH]
        = [] ->
        status_code = OK
        /\ get response "errors" = get request "errors").
Proof.
  intros H.
  pose proof (check_host message_of legislation_date _ _ _ _ H) as E.
  assert (F : flag (street_mismatch claim permit) STREET_NUMBER_MISMATCH
              ++ flag (postal_mismatch claim permit) POSTAL_CODE_MISMATCH
              ++ flag (unit_mismatch claim permit) UNIT_NUMBER_MISMATCH
              = filter (host_finding claim permit)
                  [STREET_NUMBER_MISMATCH; POSTAL_CODE_MISMATCH;
                   UNIT_NUMBER_MISMATCH]).
  { cbn [filter host_finding].
    destruct (street_mismatch claim permit), (postal_mismatch claim permit),
      (unit_mismatch claim permit); reflexivity. }
  rewrite F in E. clear F.
  destruct (filter (host_finding claim permit) _) as [|e errors].
  - eexists. eexists. split; [exact E|]. split; [intros C; now destruct C|].
    intros _. split; [reflexivity|]. unfold status_only.
    now rewrite !get_set_other by discriminate.
  - eexists. eexists. split; [exact E|]. split; [|discriminate].
    intros _. split; [reflexivity|]. apply get_set_same.
Qed.

Lemma keys_set_app {V} (d : list (string * V)) k v :
  exists added, keys (set d k v) = keys d ++ added /\ incl added [k].
Proof.
  rewrite keys_set. destruct (existsb _ _).
  - exists []. split; [now rewrite app_nil_r | intros x []].
  - exists [k]. split; [reflexivity | apply incl_refl].
Qed.

(** X3: whenever the matcher returns, the response is the request with
    at most the keys status, errors and validUntil set: the keys of the
    request come first and in their order, every other key holds the value
    it has in the request, and the status code is never NOT_FOUND. *)
Theorem response_echoes_request request registration response status_code :
  check_permit_details message_of legislation_date request registration
  = Ok (response, status_code) ->
  status_code <> NOT_FOUND
  /\ (exists added,
        keys response = keys request ++ added
        /\ incl added [ "status"; "errors"; "validUntil" ]%string)
  /\ (forall k,
        ~ In k [ "status"; "errors"; "validUntil" ]%string ->
        get response k = get request k).
Proof.
  unfold check_permit_details.
  destruct (negb (is_active (status registration))).
  - intros H. injection H as <- <-. split; [discriminate|]. split.
    + unfold status_only.
      destruct (keys_set_app request "status"
                  (VScalar (SStr (status_name (status registration)))))
        as (added & E & Hi).
      exists added. split; [exact E|]. intros x Hx. apply Hi in Hx.
      destruct Hx as [<-|[]]. simpl. auto.
    + intros k Hk. unfold status_only. apply get_set_other.
      intros <-. apply Hk. simpl. auto.
  - destruct (permit_errors request registration) as [errors|e];
      [|discriminate]. cbn [bind]. unfold respond, status_only.
    destruct errors as [|e errors]; intros H; injection H as <- <-.
    + split; [discriminate|]. split.
      * destruct (keys_set_app request "status"
                    (VScalar (SStr (status_name (status registration)))))
          as (a1 & E1 & H1).
        destruct (keys_set_app
                    (set request "status"
                       (VScalar (SStr (status_name (status registration)))))
                    "validUntil"
                    (VScalar (SStr (legislation_date (expiry_date registration)))))
          as (a2 & E2 & H2).
        exists (a1 ++ a2). split; [now rewrite E2, E1, app_assoc|].
        intros x Hx. apply in_app_iff in Hx as [Hx|Hx].
        -- apply H1 in Hx. destruct Hx as [<-|[]]. simpl. auto.
        -- apply H2 in Hx. destruct Hx as [<-|[]]. simpl. auto.
      * intros k Hk. rewrite !get_set_other; [reflexivity | |];
          intros <-; apply Hk; simpl; auto.
    + split; [discriminate|]. split.
      * destruct (keys_set_app request "errors"
                    (VList (map (error_entry message_of) (e :: errors))))
          as (added & E & Hi).
        exists added. split; [exact E|]. intros x Hx. apply Hi in Hx.
        destruct Hx as [<-|[]]. simpl. auto.
      * intros k Hk. apply get_set_other. intros <-. apply Hk. simpl. auto.
Qed.

(** X4: the matcher reports errors or a status, never both.  With
    BAD_REQUEST the registration is ACTIVE, errors is a non-empty list, and
    status and validUntil are as in the request; with OK status is the name
    of the registration's status, errors is as in the request, and
    validUntil is set exactly for an ACTIVE registration. *)
Theorem outcome_is_errors_or_status request registration response status_code :
  check_permit_details message_of legislation_date request registration
  = Ok (response, status_code) ->
  (status_code = BAD_REQUEST
   /\ status registration = ACTIVE
   /\ (exists e errors,
         get response "errors"
         = Some (VList (map (error_entry message_of) (e :: errors))))
   /\ get response "status" = get request "status"
   /\ get response "validUntil" = get request "validUntil")
  \/ (status_code = OK
      /\ get response "status"
         = Some (VScalar (SStr (status_name (status registration))))
      /\ get response "errors" = get request "errors"
      /\ get response "validUntil"
         = if is_active (status registration)
           then Some (VScalar (SStr (legislation_date (expiry_date registration))))
           else get request "validUntil").
Proof.
  unfold check_permit_details.
  destruct (is_active (status registration)) eqn:Ea; cbn [negb].
  - destruct (permit_errors request registration) as [errors|e];
      [|discriminate]. cbn [bind]. unfold respond, status_only.
    destruct errors as [|e errors]; intros H; injection H as <- <-.
    + right. split; [reflexivity|].
      rewrite get_set_same.
      rewrite !(get_set_other _ "validUntil") by discriminate.
      rewrite get_set_same.
      rewrite (get_set_other _ "status" "errors") by discriminate. auto.
    + left. split; [reflexivity|].
      split; [destruct (status registration); try discriminate; reflexivity|].
      split; [exists e, errors; apply get_set_same|].
      rewrite !(get_set_other _ "errors") by discriminate. auto.
  - intros H. injection H as <- <-. right. unfold status_only.
    rewrite get_set_same, !(get_set_other _ "status") by discriminate. auto.
Qed.

(** X5: an ACTIVE registration of type PLATFORM, which is neither HOST
    nor STRATA_HOTEL, passes with no address check: the response is the
    request with its status and validUntil, whatever address the request
    holds, also when it holds none. *)
Theorem other_registration_types_pass request registration :
  status registration = ACTIVE ->
  registration_type registration = PLATFORM ->
  check_permit_details message_of legislation_date request registration
  = Ok (set (set request "status" (VScalar (SStr (py "ACTIVE"))))
          "validUntil"
          (VScalar (SStr (legislation_date (expiry_date registration)))),
        OK).
Proof.
  intros Hs Ht. unfold check_permit_details, permit_errors, respond, status_only.
  now rewrite Hs, Ht.
Qed.

(** X6: for an ACTIVE registration of type HOST or STRATA_HOTEL, a
    request whose address is absent, or is not an object, makes the matcher
    raise AttributeError. *)
Theorem missing_address_raises request registration :
  status registration = ACTIVE ->
  registration_type registration <> PLATFORM ->
  (forall claim, get request "address" <> Some (VObj claim)) ->
  check_permit_details message_of legislation_date request registration
  = Raise AttributeError.
Proof.
  intros Hs Ht Ha. unfold check_permit_details, permit_errors.
  rewrite Hs. cbn [is_active negb].
  assert (G : forall k d, obj_get (get request "address") k d = Raise AttributeError).
  { intros k d. unfold obj_get.
    destruct (get request "address") as [[| claim |]|]; try reflexivity.
    now destruct (Ha claim). }
  destruct (registration_type registration); [|contradiction|].
  - unfold host_errors. now rewrite G.
  - unfold strata_errors.
    destruct (strata_hotel_registration registration); cbn [deref bind];
      [now rewrite G | reflexivity].
Qed.

Lemma host_errors_kind claim registration permit :
  rental_property registration = Some {| address := permit |} ->
  match host_errors (Some (VObj claim)) registration with
  | Raise AttributeError =>
      text_or_absent claim "postalCode" = false \/ postal_code permit = None
  | Raise TypeError =>
      text_or_absent claim "postalCode" = true
      /\ postal_code permit <> None
      /\ unit_comparable claim permit = false
  | Ok _ =>
      text_or_absent claim "postalCode" = true
      /\ postal_code permit <> None
      /\ unit_comparable claim permit = true
  end.
Proof.
  intros Hr. unfold host_errors, obj_get. rewrite Hr.
  unfold text_or_absent, unit_comparable, claim_unit_value.
  destruct (get claim "streetNumber") as [sn|];
    destruct (get claim "postalCode") as [[| | |pc]|];
    cbn [bind deref address replace_spaces]; auto;
    destruct (postal_code permit) as [pp|];
    cbn [bind replace_spaces of_attr]; auto;
    destruct (get claim "unitNumber") as [[|[]|z|[|c0 un]]|];
    destruct (unit_number permit) as [[|u0 u]|];
    cbn [bind truthy of_attr filtered has_unit is_text negb andb orb eqs];
    try (destruct (Z.eqb z 0); cbn [bind filtered negb andb orb]);
    repeat split; first [reflexivity | discriminate].
Qed.

(** X7: the exceptions of the HOST branch, for an ACTIVE HOST
    registration and a request whose address is an object.  The matcher
    raises AttributeError exactly when the claimed postal code is present
    and not a string, or the permit has no postal code; it raises TypeError
    exactly when the postal codes can be compared and both sides have a
    unit number, the claimed one not a string; it returns in every other
    case. *)
Theorem host_exceptions request registration claim permit :
  active_host_request request registration claim permit ->
  (check_permit_details message_of legislation_date request registration
   = Raise AttributeError
   <-> text_or_absent claim "postalCode" = false
       \/ postal_code permit = None)
  /\ (check_permit_details message_of legislation_date request registration
      = Raise TypeError
      <-> text_or_absent claim "postalCode" = true
          /\ postal_code permit <> None
          /\ unit_comparable claim permit = false)
  /\ ((exists outcome,
         check_permit_details message_of legislation_date request registration
         = Ok outcome)
      <-> text_or_absent claim "postalCode" = true
          /\ postal_code permit <> None
          /\ unit_comparable claim permit = true).
Proof.
  intros (Hs & Ht & Hr & Ha).
  unfold check_permit_details, permit_errors.
  rewrite Hs, Ht, Ha. cbn [is_active negb].
  pose proof (host_errors_kind claim registration permit Hr) as K.
  destruct (host_errors (Some (VObj claim)) registration) as [errors|[|]];
    cbn [bind].
  - destruct K as (K1 & K2 & K3). split; [|split].
    + split; [discriminate | intros [H|H]; congruence].
    + split; [discriminate | intros (_ & _ & H); congruence].
    + split; [auto | eauto].
  - split; [|split].
    + split; [auto | reflexivity].
    + split; [discriminate | intros (H1 & H2 & _); destruct K; congruence].
    + split; [intros (o & H); discriminate
             | intros (H1 & H2 & _); destruct K; congruence].
  - destruct K as (K1 & K2 & K3). split; [|split].
    + split; [discriminate | intros [H|H]; congruence].
    + split; [auto | reflexivity].
    + split; [intros (o & H); discriminate | intros (_ & _ & H); congruence].
Qed.
End ResponseProperties.

(** *** The strata search and the status codes *)

Section SearchProperties.
Variable message_of : ErrorMessage -> str.
Variable legislation_date : datetime -> str.

Lemma first_match_after claim pre rest :
  text_or_absent claim "postalCode" = true ->
  Forall (turned_down claim) pre ->
  first_match (Some (VObj claim)) (strata_claim_number claim)
    (split_space_first (strata_claim_number claim)) (pre ++ rest)
  = first_match (Some (VObj claim)) (strata_claim_number claim)
      (split_space_first (strata_claim_number claim)) rest.
Proof.
  intros Hp Hpre. induction Hpre as [|x pre Hx _ IH]; [reflexivity|].
  cbn [app first_match].
  now rewrite (candidate_matches_turned_down _ _ Hp Hx).
Qed.

(** X8: the strata search stops at the first candidate it cannot read.
    When every candidate before it is turned down, a candidate with no
    street address makes the matcher raise TypeError, and a candidate whose
    street number agrees and which has no postal code makes it raise
    AttributeError, whatever the later candidates hold. *)
Theorem strata_candidates_examined_in_order request registration claim hotel :
  active_strata_case request registration claim hotel ->
  forall pre c post,
    candidates hotel = pre ++ c :: post ->
    Forall (turned_down claim) pre ->
    (street_address c = None ->
     check_permit_details message_of legislation_date request registration
     = Raise TypeError)
    /\ (forall line,
          street_address c = Some line -> number_agrees claim line ->
          postal_code c = None ->
          check_permit_details message_of legislation_date request registration
          = Raise AttributeError).
Proof.
  intros H pre c post Hc Hpre.
  pose proof (check_strata message_of legislation_date _ _ _ _ H) as E.
  destruct H as (_ & _ & _ & _ & Hp).
  rewrite E, Hc, (first_match_after _ _ _ Hp Hpre). cbn [first_match].
  split.
  - intros Hl. unfold candidate_matches. now rewrite Hl.
  - intros line Hl Hn Hpc.
    rewrite (candidate_matches_run _ _ _ _ _ Hp Hl), Hpc.
    apply in_pair_iff in Hn. now rewrite Hn.
Qed.

Lemma check_status_code request registration response status_code :
  check_permit_details message_of legislation_date request registration
  = Ok (response, status_code) ->
  status_code = OK \/ status_code = BAD_REQUEST.
Proof.
  unfold check_permit_details.
  destruct (negb (is_active (status registration))).
  - intros H. injection H as _ <-. now left.
  - destruct (permit_errors request registration) as [errors|e];
      [|discriminate]. cbn [bind]. unfold respond.
    destruct errors; intros H; injection H as _ <-; auto.
Qed.

Variable validate : dict -> bool * list obj.
Variable find_by_registration_number : option value -> option Registration.

(** X9: the status codes of [validate_permit].  An invocation that
    returns answers NOT_FOUND exactly when the request passes the schema
    and no registration has its identifier, and the response is then the one
    error PERMIT_NOT_FOUND; a request that fails the schema is answered
    BAD_REQUEST with the errors of the validator. *)
Theorem validate_permit_status_codes request table response status_code table' :
  validate_permit message_of legislation_date validate
    find_by_registration_number request table
  = Ok ((response, status_code), table') ->
  (status_code = NOT_FOUND
   <-> fst (validate request) = true
       /\ find_by_registration_number (get request "identifier") = None)
  /\ (status_code = NOT_FOUND ->
      response
      = [ ("errors"%string,
           VList [ [ ("code"%string, SStr (py "PERMIT_NOT_FOUND"));
                     ("message"%string, SStr (message_of PERMIT_NOT_FOUND)) ] ]) ])
  /\ (fst (validate request) = false ->
      status_code = BAD_REQUEST
      /\ response = [ ("errors"%string, VList (snd (validate request))) ]).
Proof.
  unfold validate_permit.
  destruct (validate request) as [valid errors]. cbn [fst snd].
  destruct valid; cbn [negb bind].
  - destruct (find_by_registration_number (get request "identifier"))
      as [registration|].
    + destruct (check_permit_details _ _ _ _) as [[r c]|e] eqn:E;
        cbn [bind]; [|discriminate].
      intros H. injection H as <- <- _.
      destruct (check_status_code _ _ _ _ E) as [-> | ->];
        (split; [split; [discriminate | intros (_ & ?); discriminate]|]);
        (split; [discriminate | discriminate]).
    + cbn [bind]. intros H. injection H as <- <- _.
      split; [split; auto|]. split; [reflexivity | discriminate].
  - intros H. injection H as <- <- _.
    split; [split; [discriminate | intros (? & _); discriminate]|].
    split; [discriminate | auto].
Qed.
End SearchProperties.

(** *** What a normalised unit number looks like *)

Lemma islower_upper c : islower (upper_char c) = false.
Proof. destruct c as [[] [] [] [] [] [] [] []]; reflexivity. Qed.

(** X12: a normalised unit number holds no hyphen, no full stop, no
    whitespace and no lower-case letter. *)
Theorem filtered_is_bare_and_upper_case x :
  Forall (fun c => is_separator c = false /\ islower c = false)
    (_get_filtered_unit_number x).
Proof.
  pose proof (filtered_clean x) as H. apply Forall_forall. intros c Hc.
  split; [now apply (proj1 (Forall_forall _ _) H)|].
  unfold _get_filtered_unit_number, upper in Hc. apply in_map_iff in Hc.
  destruct Hc as (d & <- & _). apply islower_upper.
Qed.

Lemma subsequence_refl s : subsequence s s.
Proof. induction s; constructor; assumption. Qed.

Lemma subsequence_nil_l s : subsequence [] s.
Proof. induction s; constructor; assumption. Qed.

Lemma subsequence_app a b c d :
  subsequence a b -> subsequence c d -> subsequence (a ++ c) (b ++ d).
Proof.
  intros Hab Hcd. induction Hab; cbn; try constructor; auto.
Qed.

Lemma subsequence_trans a b : subsequence a b -> forall c, subsequence b c -> subsequence a c.
Proof.
  intros Hab c Hbc. revert a Hab.
  induction Hbc as [|x b c Hbc IH|x b c Hbc IH]; intros a Hab.
  - exact Hab.
  - inversion Hab; subst; constructor; auto.
  - constructor. auto.
Qed.

Lemma subsequence_length a b : subsequence a b -> length a <= length b.
Proof. induction 1; simpl; lia. Qed.

Lemma subsequence_skipn n s : subsequence (skipn n s) s.
Proof.
  revert s. induction n as [|n IH]; intros s; [apply subsequence_refl|].
  destruct s as [|c s]; [constructor|]. cbn. constructor. apply IH.
Qed.

Lemma subsequence_map f a b :
  subsequence a b -> subsequence (map f a) (map f b).
Proof. induction 1; cbn; constructor; assumption. Qed.

Lemma sub_from_subsequence m (Hm : conservative m) s : forall k prev,
  subsequence (sub_from m k prev s) (skipn k s).
Proof.
  induction s as [|c r IH]; intros k prev.
  - destruct k; constructor.
  - destruct k as [|k]; [|cbn; apply IH].
    rewrite sub_from_cons. cbn [skipn].
    destruct (m prev (c :: r)) as [[[|n] repl]|] eqn:E.
    + constructor. apply (IH 0).
    + apply Hm in E. rewrite <- (firstn_skipn (S n) (c :: r)).
      apply subsequence_app; [exact E | apply IH].
    + constructor. apply (IH 0).
Qed.

Lemma sub_subsequence m (Hm : conservative m) s : subsequence (sub m s) s.
Proof. apply (sub_from_subsequence m Hm s 0 None). Qed.

Lemma deleting_conservative m : deleting m -> conservative m.
Proof.
  intros Hm prev s n repl E. rewrite (Hm _ _ _ _ E). apply subsequence_nil_l.
Qed.

Lemma deleting_leading_marks : deleting leading_marks.
Proof.
  intros prev s n repl. unfold leading_marks. destruct prev; [discriminate|].
  destruct (run is_hash_or_hyphen s); [discriminate|].
  remember (run isspace _) as w. intros H. now injection H as _ <-.
Qed.

Lemma deleting_separators : deleting separators.
Proof.
  intros prev s n repl. unfold separators.
  destruct (run is_separator s); [discriminate|].
  intros H. now injection H as _ <-.
Qed.

Lemma firstn_plus z w (s : str) :
  firstn (z + w) s = firstn z s ++ firstn w (skipn z s).
Proof.
  revert s. induction z as [|z IH]; intros s; [reflexivity|].
  destruct s as [|c s]; [now rewrite !firstn_nil|]. cbn. now rewrite IH.
Qed.

Lemma conservative_leading_zeros : conservative leading_zeros.
Proof.
  intros prev s n repl. unfold leading_zeros.
  destruct (boundary prev s); [|discriminate].
  destruct (run is_zero s) as [|z] eqn:Ez; [discriminate|].
  destruct (run isword (skipn (S z) s)) as [|w].
  - destruct z as [|z]; [discriminate|]. intros H. injection H as <- <-.
    destruct s as [|c r]; [discriminate|].
    unfold run in Ez. cbn [takewhile] in Ez.
    destruct (is_zero c) eqn:Ec; [|discriminate].
    apply eqc_eq in Ec. subst c. cbn [firstn]. constructor.
    apply subsequence_nil_l.
  - remember (firstn (S w) (skipn (S z) s)) as out eqn:Eo.
    intros H.
    assert (En : n = S z + S w) by (injection H; intros; lia).
    assert (Er : repl = out) by (injection H; auto).
    subst n repl. rewrite firstn_plus, <- Eo.
    rewrite <- (app_nil_l out) at 1.
    apply subsequence_app; [apply subsequence_nil_l | apply subsequence_refl].
Qed.

(** X13: the normaliser only deletes characters and raises the case of
    letters: its result is the upper case of a subsequence of its argument,
    and is never longer than the argument. *)
Theorem filtered_only_deletes x :
  exists kept,
    subsequence kept x
    /\ _get_filtered_unit_number x = upper kept
    /\ length (_get_filtered_unit_number x) <= length x.
Proof.
  exists (sub leading_zeros (sub separators (sub keyword (sub leading_marks x)))).
  assert (S : subsequence
                (sub leading_zeros (sub separators (sub keyword (sub leading_marks x))))
                x).
  { eapply subsequence_trans; [apply (sub_subsequence _ conservative_leading_zeros)|].
    eapply subsequence_trans;
      [apply (sub_subsequence _ (deleting_conservative _ deleting_separators))|].
    eapply subsequence_trans;
      [apply (sub_subsequence _ (deleting_conservative _ deleting_keyword))|].
    apply (sub_subsequence _ (deleting_conservative _ deleting_leading_marks)). }
  split; [exact S|]. split; [reflexivity|].
  unfold _get_filtered_unit_number. rewrite length_upper.
  now apply subsequence_length.
Qed.

(** *** Letter case *)

Lemma sub_from_blind f m (Hm : blind_to f m) s : forall k prev,
  sub_from m k (option_map f prev) (map f s) = map f (sub_from m k prev s).
Proof.
  induction s as [|c r IH]; intros k prev; [reflexivity|].
  destruct k as [|k]; [|cbn; apply (IH k (Some c))].
  change (map f (c :: r)) with (f c :: map f r) at 1.
  rewrite !sub_from_cons.
  change (f c :: map f r) with (map f (c :: r)). rewrite Hm.
  destruct (m prev (c :: r)) as [[[|n] repl]|].
  - cbn [map]. f_equal. apply (IH 0 (Some c)).
  - rewrite map_app. f_equal. apply (IH n (Some c)).
  - cbn [map]. f_equal. apply (IH 0 (Some c)).
Qed.

Lemma run_map p f (Hp : forall c, p (f c) = p c) s : run p (map f s) = run p s.
Proof.
  unfold run. induction s as [|c r IH]; [reflexivity|]. cbn.
  rewrite Hp. destruct (p c); cbn; [now rewrite IH | reflexivity].
Qed.

Lemma is_hash_or_hyphen_lower c :
  is_hash_or_hyphen (lower_char c) = is_hash_or_hyphen c.
Proof. destruct c as [[] [] [] [] [] [] [] []]; reflexivity. Qed.

Lemma isspace_lower c : isspace (lower_char c) = isspace c.
Proof. destruct c as [[] [] [] [] [] [] [] []]; reflexivity. Qed.

Lemma is_separator_lower c : is_separator (lower_char c) = is_separator c.
Proof. destruct c as [[] [] [] [] [] [] [] []]; reflexivity. Qed.

Lemma is_zero_lower c : is_zero (lower_char c) = is_zero c.
Proof. destruct c as [[] [] [] [] [] [] [] []]; reflexivity. Qed.

Lemma upper_lower_char c : upper_char (lower_char c) = upper_char c.
Proof. destruct c as [[] [] [] [] [] [] [] []]; reflexivity. Qed.

Lemma boundary_lower prev s :
  boundary (option_map lower_char prev) (map lower_char s) = boundary prev s.
Proof.
  unfold boundary. f_equal.
  - destruct prev; [apply isword_lower | reflexivity].
  - destruct s; [reflexivity | apply isword_lower].
Qed.

Lemma blind_leading_marks : blind_to lower_char leading_marks.
Proof.
  intros prev s. unfold leading_marks. destruct prev; [reflexivity|].
  cbn [option_map]. rewrite (run_map _ _ is_hash_or_hyphen_lower).
  destruct (run is_hash_or_hyphen s) as [|k]; [reflexivity|].
  now rewrite skipn_map, (run_map _ _ isspace_lower).
Qed.

Lemma blind_keyword : blind_to lower_char keyword.
Proof.
  intros prev s. unfold keyword. rewrite boundary_lower.
  destruct (boundary prev s); [|reflexivity].
  change (map lower_char s) with (lower s). rewrite match_first_lower.
  now destruct (match_first KEYWORD_ALTERNATIVES s).
Qed.

Lemma blind_separators : blind_to lower_char separators.
Proof.
  intros prev s. unfold separators. rewrite (run_map _ _ is_separator_lower).
  now destruct (run is_separator s).
Qed.

Lemma blind_leading_zeros : blind_to lower_char leading_zeros.
Proof.
  intros prev s. unfold leading_zeros. rewrite boundary_lower.
  destruct (boundary prev s); [|reflexivity].
  rewrite (run_map _ _ is_zero_lower).
  destruct (run is_zero s) as [|z]; [reflexivity|].
  rewrite skipn_map, (run_map _ _ isword_lower).
  destruct (run isword (skipn (S z) s)) as [|w].
  - now destruct z.
  - now rewrite firstn_map.
Qed.

Lemma sub_lower m (Hm : blind_to lower_char m) s :
  sub m (lower s) = lower (sub m s).
Proof. apply (sub_from_blind lower_char m Hm s 0 None). Qed.

Lemma filtered_lower x :
  _get_filtered_unit_number (lower x) = _get_filtered_unit_number x.
Proof.
  unfold _get_filtered_unit_number.
  rewrite (sub_lower _ blind_leading_marks), (sub_lower _ blind_keyword),
    (sub_lower _ blind_separators), (sub_lower _ blind_leading_zeros).
  unfold upper, lower. rewrite map_map. apply map_ext. apply upper_lower_char.
Qed.

(** X14: the normaliser does not tell upper case from lower case: two
    unit numbers that differ only by the case of their letters have the
    same normal form. *)
Theorem filtered_ignores_case a b :
  same_text_ci a b ->
  _get_filtered_unit_number a = _get_filtered_unit_number b.
Proof.
  unfold same_text_ci. intros H.
  rewrite <- (filtered_lower a), <- (filtered_lower b). now rewrite H.
Qed.

(** *** A leading mark *)

Lemma skipn_run p s : skipn (run p s) s = dropwhile p s.
Proof.
  unfold run. induction s as [|c r IH]; [reflexivity|]. cbn.
  destruct (p c); cbn; [exact IH | reflexivity].
Qed.

Lemma takewhile_dropwhile p s : takewhile p s ++ dropwhile p s = s.
Proof.
  induction s as [|c r IH]; [reflexivity|]. cbn.
  destruct (p c); cbn; [now rewrite IH | reflexivity].
Qed.

Lemma takewhile_all p s : Forall (fun c => p c = true) (takewhile p s).
Proof.
  induction s as [|c r IH]; cbn; [constructor|].
  destruct (p c) eqn:E; constructor; assumption.
Qed.

Lemma sub_from_leading_marks_inside s : forall k p,
  sub_from leading_marks k (Some p) s = skipn k s.
Proof.
  induction s as [|c r IH]; intros k p; [now destruct k|].
  destruct k as [|k]; [|cbn; apply IH].
  rewrite sub_from_cons. cbn [leading_marks skipn]. f_equal. apply (IH 0).
Qed.

Lemma sub_leading_marks s :
  sub leading_marks s
  = match s with
    | c :: _ =>
        if is_hash_or_hyphen c
        then dropwhile isspace (dropwhile is_hash_or_hyphen s)
        else s
    | [] => []
    end.
Proof.
  destruct s as [|c r]; [reflexivity|]. unfold sub. rewrite sub_from_cons.
  destruct (is_hash_or_hyphen c) eqn:Ec.
  - assert (R : run is_hash_or_hyphen (c :: r) = S (run is_hash_or_hyphen r))
      by (unfold run; cbn [takewhile]; now rewrite Ec).
    unfold leading_marks. rewrite R. cbn [skipn Nat.add app].
    rewrite sub_from_leading_marks_inside.
    cbn [dropwhile]. rewrite Ec.
    rewrite <- (skipn_run is_hash_or_hyphen r).
    rewrite <- (skipn_run isspace (skipn _ r)).
    rewrite skipn_skipn. f_equal. lia.
  - assert (R : run is_hash_or_hyphen (c :: r) = 0)
      by (unfold run; cbn [takewhile]; now rewrite Ec).
    unfold leading_marks. rewrite R. f_equal.
    apply (sub_from_leading_marks_inside r 0).
Qed.

Lemma isspace_not_word c : isspace c = true -> isword c = false.
Proof. destruct c as [[] [] [] [] [] [] [] []]; try discriminate; reflexivity. Qed.

Lemma isspace_separator c : isspace c = true -> is_separator c = true.
Proof.
  intros H. unfold is_separator. rewrite H. now rewrite !orb_true_r.
Qed.

Lemma sub_from_prev m p q s :
  m p s = m q s -> sub_from m 0 p s = sub_from m 0 q s.
Proof.
  intros H. destruct s as [|c r]; [reflexivity|].
  now rewrite !sub_from_cons, H.
Qed.

Lemma keyword_prev p q s :
  word_before p = word_before q -> keyword p s = keyword q s.
Proof. intros H. unfold keyword, boundary. now rewrite H. Qed.

Lemma sub_keyword_after_space ws s : forall prev,
  Forall (fun c => isspace c = true) ws ->
  word_before prev = false ->
  sub_from keyword 0 prev (ws ++ s) = ws ++ sub_from keyword 0 prev s.
Proof.
  induction ws as [|c ws IH]; intros prev Hws Hp; [reflexivity|].
  inversion Hws as [|? ? Hc Hr]; subst.
  pose proof (isspace_not_word c Hc) as Hw.
  cbn [app]. rewrite sub_from_cons.
  unfold keyword at 1. unfold boundary. rewrite Hp. cbn [word_at]. rewrite Hw.
  cbn [xorb]. f_equal. rewrite (IH (Some c) Hr Hw). f_equal.
  apply sub_from_prev, keyword_prev. cbn [word_before]. now rewrite Hw, Hp.
Qed.

Lemma sub_separators_after_space ws s :
  Forall (fun c => isspace c = true) ws ->
  sub separators (ws ++ s) = sub separators s.
Proof.
  intros Hws. rewrite !sub_separators, filter_app.
  replace (filter _ ws) with (@nil ascii); [reflexivity|].
  induction Hws as [|c ws Hc _ IH]; [reflexivity|].
  cbn [filter]. now rewrite (isspace_separator c Hc).
Qed.

Lemma keyword_then_separators_lstrip s :
  sub separators (sub keyword (dropwhile isspace s))
  = sub separators (sub keyword s).
Proof.
  rewrite <- (takewhile_dropwhile isspace s) at 2.
  unfold sub at 4.
  rewrite (sub_keyword_after_space _ _ None (takewhile_all isspace s) eq_refl).
  now rewrite sub_separators_after_space by apply takewhile_all.
Qed.

(** X15: a '#' or a '-' in front of a unit number does not change its
    normal form. *)
Theorem filtered_ignores_leading_mark m x :
  is_hash_or_hyphen m = true ->
  _get_filtered_unit_number (m :: x) = _get_filtered_unit_number x.
Proof.
  intros Hm. unfold _get_filtered_unit_number.
  rewrite (sub_leading_marks (m :: x)), Hm. cbn [dropwhile]. rewrite Hm.
  rewrite (sub_leading_marks x).
  destruct x as [|c r]; [reflexivity|].
  destruct (is_hash_or_hyphen c) eqn:Ec; [reflexivity|].
  cbn [dropwhile]. rewrite Ec.
  now rewrite keyword_then_separators_lstrip.
Qed.


(** *** Numbers *)

Lemma isdigit_word c : isdigit c = true -> isword c = true.
Proof. destruct c as [[] [] [] [] [] [] [] []]; try discriminate; reflexivity. Qed.

Lemma isdigit_not_separator c : isdigit c = true -> is_separator c = false.
Proof. destruct c as [[] [] [] [] [] [] [] []]; try discriminate; reflexivity. Qed.

Lemma isdigit_not_mark c : isdigit c = true -> is_hash_or_hyphen c = false.
Proof. destruct c as [[] [] [] [] [] [] [] []]; try discriminate; reflexivity. Qed.

Lemma isdigit_upper c : isdigit c = true -> upper_char c = c.
Proof. destruct c as [[] [] [] [] [] [] [] []]; try discriminate; reflexivity. Qed.

Lemma isdigit_lower c : isdigit (lower_char c) = isdigit c.
Proof. destruct c as [[] [] [] [] [] [] [] []]; reflexivity. Qed.

Lemma keywords_start_with_no_digit :
  forallb starts_with_no_digit KEYWORD_ALTERNATIVES = true.
Proof. reflexivity. Qed.

Lemma no_keyword_at_digit c t :
  isdigit c = true -> match_first KEYWORD_ALTERNATIVES (c :: t) = None.
Proof.
  intros Hc. destruct (match_first KEYWORD_ALTERNATIVES (c :: t)) as [n|] eqn:E;
    [|reflexivity].
  destruct (match_first_inv _ _ _ E) as (a & Ha & Ea).
  apply match_alternative_text in Ea.
  pose proof keywords_start_with_no_digit as T. rewrite forallb_forall in T.
  specialize (T a Ha). unfold starts_with_no_digit in T.
  destruct (alternative_text a) as [|x k]; [discriminate|].
  cbn [starts_with_ci] in Ea. apply andb_true_iff in Ea as [Ex _].
  apply eqc_eq in Ex. rewrite Ex, isdigit_lower, Hc in T. discriminate.
Qed.

Lemma keyword_quiet_on_digits s : forall prev,
  Forall (fun c => isdigit c = true) s -> occurs keyword prev s = false.
Proof.
  induction s as [|c r IH]; intros prev H; [reflexivity|].
  inversion H as [|? ? Hc Hr]; subst. cbn [occurs]. rewrite (IH _ Hr).
  unfold hits, keyword. rewrite (no_keyword_at_digit c r Hc).
  now destruct (boundary prev (c :: r)).
Qed.

Lemma leading_zeros_inside s : forall p,
  isword p = true -> Forall (fun c => isword c = true) s ->
  sub_from leading_zeros 0 (Some p) s = s.
Proof.
  induction s as [|c r IH]; intros p Hp H; [reflexivity|].
  inversion H as [|? ? Hc Hr]; subst. rewrite sub_from_cons.
  unfold leading_zeros at 1. unfold boundary. cbn [word_before word_at].
  rewrite Hp, Hc. cbn [xorb]. f_equal. now apply IH.
Qed.

Lemma sub_from_beyond m s : forall k prev,
  length s <= k -> sub_from m k prev s = [].
Proof.
  induction s as [|c r IH]; intros k prev H; [reflexivity|].
  destruct k as [|k]; [simpl in H; lia|]. cbn. apply IH. simpl in H. lia.
Qed.

Lemma run_all p s : Forall (fun c => p c = true) s -> run p s = length s.
Proof.
  unfold run. induction 1 as [|c r Hc _ IH]; [reflexivity|].
  cbn. rewrite Hc. cbn. now rewrite IH.
Qed.

Lemma Forall_skipn (P : ascii -> Prop) n (s : str) :
  Forall P s -> Forall P (skipn n s).
Proof.
  intros H. rewrite <- (firstn_skipn n s) in H. now apply Forall_app in H.
Qed.

Lemma sub_leading_zeros_digits s :
  Forall (fun c => isdigit c = true) s ->
  sub leading_zeros s = without_leading_zeros s.
Proof.
  intros Hd.
  assert (Hw : Forall (fun c => isword c = true) s)
    by (eapply Forall_impl; [|exact Hd]; apply isdigit_word).
  destruct s as [|c r]; [reflexivity|].
  inversion Hw as [|? ? Hc Hr]; subst.
  unfold sub, without_leading_zeros. rewrite sub_from_cons.
  rewrite <- (skipn_run is_zero (c :: r)).
  unfold leading_zeros at 1. unfold boundary. cbn [word_before word_at].
  rewrite Hc. cbn [xorb].
  pose proof (run_le is_zero (c :: r)) as Lz.
  destruct (run is_zero (c :: r)) as [|z] eqn:Ez.
  - cbn [skipn]. f_equal. now apply leading_zeros_inside.
  - pose proof (run_all isword (skipn (S z) (c :: r))
                  (Forall_skipn _ _ _ Hw)) as Rw.
    pose proof (length_skipn (S z) (c :: r)) as Ls.
    destruct (run isword (skipn (S z) (c :: r))) as [|w] eqn:Ew.
    + assert (En : skipn (S z) (c :: r) = [])
        by (apply length_zero_iff_nil; lia).
      rewrite En. cbn [length] in *.
      assert (Ec : c = "0"%char).
      { unfold run in Ez. cbn [takewhile] in Ez.
        destruct (is_zero c) eqn:E0; [now apply eqc_eq in E0 | discriminate]. }
      destruct z as [|z].
      * assert (r = []) by (apply length_zero_iff_nil; lia). subst.
        reflexivity.
      * cbn [app]. rewrite sub_from_beyond by lia. reflexivity.
    + remember (skipn (S z) (c :: r)) as t eqn:Et.
      assert (Ef : firstn (S w) t = t) by (apply firstn_all2; lia).
      rewrite Ef. cbn [Nat.add]. rewrite sub_from_beyond by (cbn [length] in *; lia).
      rewrite app_nil_r. destruct t; [discriminate | reflexivity].
Qed.

Lemma filtered_digits s :
  Forall (fun c => isdigit c = true) s ->
  _get_filtered_unit_number s = without_leading_zeros s.
Proof.
  intros Hd. unfold _get_filtered_unit_number.
  rewrite (sub_quiet leading_marks s).
  2:{ rewrite occurs_leading_marks. destruct Hd as [|c r Hc _]; [reflexivity|].
      now apply isdigit_not_mark. }
  rewrite (sub_quiet keyword s) by now apply keyword_quiet_on_digits.
  rewrite (separators_quiet s).
  2:{ eapply Forall_impl; [|exact Hd]. apply isdigit_not_separator. }
  rewrite (sub_leading_zeros_digits s Hd).
  assert (Ho : Forall (fun c => isdigit c = true) (without_leading_zeros s)).
  { unfold without_leading_zeros.
    destruct (dropwhile is_zero s) as [|x t] eqn:E.
    - destruct s; repeat constructor.
    - destruct (dropwhile_suffix is_zero s) as [pre Ep]. rewrite E in Ep.
      rewrite Ep in Hd. now apply Forall_app in Hd. }
  unfold upper. induction Ho as [|c r Hc _ IH]; [reflexivity|].
  cbn [map]. now rewrite (isdigit_upper c Hc), IH.
Qed.

Lemma dropwhile_zeros k d :
  dropwhile is_zero (repeat "0"%char k ++ d) = dropwhile is_zero d.
Proof. induction k as [|k IH]; [reflexivity | exact IH]. Qed.

(** X16: leading zeros of a number are ignored.  A non-empty text of
    digits has the same normal form with any number of zeros in front of
    it: the text without its leading zeros, one zero kept when all of its
    digits are zeros. *)
Theorem filtered_ignores_leading_zeros_of_numbers k d :
  d <> [] -> Forall (fun c => isdigit c = true) d ->
  _get_filtered_unit_number (repeat "0"%char k ++ d)
  = _get_filtered_unit_number d
  /\ _get_filtered_unit_number d = without_leading_zeros d.
Proof.
  intros Hn Hd. split; [|now apply filtered_digits].
  rewrite !filtered_digits; [| assumption |].
  - unfold without_leading_zeros. rewrite dropwhile_zeros.
    destruct d as [|c r]; [contradiction|].
    destruct (dropwhile is_zero (c :: r)); [|reflexivity].
    now destruct k.
  - apply Forall_app. split; [|assumption].
    apply Forall_forall. intros c Hc. apply repeat_spec in Hc. now subst.
Qed.

(** *** The helpers of the strata branch *)

Lemma has_hyphen_app a b : has_hyphen (a ++ b) = has_hyphen a || has_hyphen b.
Proof. unfold has_hyphen. apply existsb_app. Qed.

Lemma after_first_hyphen_app pre rest :
  has_hyphen pre = false ->
  after_first_hyphen (pre ++ "-"%char :: rest) = rest.
Proof.
  unfold after_first_hyphen, has_hyphen.
  induction pre as [|c pre IH]; intros H; [reflexivity|].
  cbn [existsb] in H. apply orb_false_iff in H as [Hc H].
  cbn [app dropwhile]. rewrite Hc. cbn [negb]. now apply IH.
Qed.

Lemma text_after_hyphen_cut pre rest :
  has_hyphen pre = false ->
  _get_text_after_hyphen (pre ++ "-"%char :: rest) = strip rest.
Proof.
  intros H. unfold _get_text_after_hyphen.
  rewrite has_hyphen_app. cbn [has_hyphen existsb].
  replace (is_hyphen "-") with true by reflexivity.
  rewrite orb_true_r. cbn [orb]. now rewrite after_first_hyphen_app.
Qed.

(** X10: [_get_text_after_hyphen] returns a line with no hyphen as it
    is, untrimmed; of a line with a hyphen it returns what follows the first
    hyphen, trimmed of whitespace, later hyphens kept. *)
Theorem text_after_the_first_hyphen :
  (forall line, has_hyphen line = false -> _get_text_after_hyphen line = line)
  /\ (forall pre rest,
        has_hyphen pre = false ->
        _get_text_after_hyphen (pre ++ "-"%char :: rest) = strip rest).
Proof.
  split.
  - intros line H. unfold _get_text_after_hyphen. now rewrite H.
  - exact text_after_hyphen_cut.
Qed.

Lemma dropwhile_app_all p ws t :
  Forall (fun c => p c = true) ws -> dropwhile p (ws ++ t) = dropwhile p t.
Proof.
  induction 1 as [|c ws Hc _ IH]; [reflexivity|]. cbn. now rewrite Hc.
Qed.

Lemma dropwhile_app_stop p a b :
  match b with [] => False | c :: _ => p c = false end ->
  dropwhile p (a ++ b) = dropwhile p a ++ b.
Proof.
  intros Hb. induction a as [|x a IH]; cbn.
  - destruct b as [|c b]; [contradiction|]. cbn. now rewrite Hb.
  - destruct (p x); [exact IH | reflexivity].
Qed.

Lemma rstrip_app n u :
  n <> [] -> Forall (fun c => isspace c = false) n ->
  rstrip (n ++ u) = n ++ rstrip u.
Proof.
  intros Hn Hs. unfold rstrip. rewrite rev_app_distr.
  rewrite dropwhile_app_stop.
  - now rewrite rev_app_distr, rev_involutive.
  - apply Forall_rev in Hs. destruct (rev n) as [|c t] eqn:E.
    + apply (f_equal (@length _)) in E. rewrite length_rev in E.
      destruct n; [contradiction | discriminate].
    + now inversion Hs.
Qed.

Lemma rstrip_prefix u : exists rest, u = rstrip u ++ rest.
Proof.
  unfold rstrip. destruct (dropwhile_suffix isspace (rev u)) as [pre E].
  exists (rev pre). rewrite <- rev_app_distr, <- E. now rewrite rev_involutive.
Qed.

Lemma rstrip_all ws : Forall (fun c => isspace c = true) ws -> rstrip ws = [].
Proof.
  intros H. unfold rstrip. apply Forall_rev in H.
  rewrite <- (app_nil_r (rev ws)), (dropwhile_app_all isspace _ [] H).
  reflexivity.
Qed.

Lemma space_is_whitespace c : is_space_char c = true -> isspace c = true.
Proof. intros H. apply eqc_eq in H. now subst. Qed.

Lemma split_space_first_app n t :
  Forall (fun c => isspace c = false) n ->
  match t with [] => True | c :: _ => is_space_char c = true end ->
  split_space_first (n ++ t) = n.
Proof.
  intros Hn Ht. unfold split_space_first.
  induction Hn as [|c n Hc _ IH]; cbn.
  - destruct t as [|c t]; [reflexivity|]. cbn. now rewrite Ht.
  - destruct (is_space_char c) eqn:E.
    + apply space_is_whitespace in E. congruence.
    + cbn [negb]. now rewrite IH.
Qed.

Lemma lstrip_app ws n u :
  Forall (fun c => isspace c = true) ws ->
  n <> [] -> Forall (fun c => isspace c = false) n ->
  lstrip (ws ++ n ++ u) = n ++ u.
Proof.
  intros Hws Hn Hs. unfold lstrip. rewrite (dropwhile_app_all _ _ _ Hws).
  apply dropwhile_fixed. destruct n as [|c n]; [contradiction|].
  now inversion Hs.
Qed.

(** X11: [_extract_street_number] returns the first token of an
    address.  Leading whitespace is skipped, and a number with no whitespace
    in it is returned when a SPACE follows it, or only whitespace up to the
    end of the line.  After [_get_text_after_hyphen], what stands before the
    first hyphen of the line is no part of the street number. *)
Theorem street_number_is_the_first_token ws n :
  Forall (fun c => isspace c = true) ws ->
  n <> [] -> Forall (fun c => isspace c = false) n ->
  (forall rest,
      _extract_street_number (ws ++ n ++ " "%char :: rest) = n)
  /\ (forall ws',
        Forall (fun c => isspace c = true) ws' ->
        _extract_street_number (ws ++ n ++ ws') = n)
  /\ (forall unit rest,
        has_hyphen unit = false ->
        _extract_street_number
          (_get_text_after_hyphen (unit ++ "-"%char :: ws ++ n ++ " "%char :: rest))
        = n).
Proof.
  intros Hws Hn Hs.
  assert (A : forall rest,
             _extract_street_number (ws ++ n ++ " "%char :: rest) = n).
  { intros rest. unfold _extract_street_number, strip.
    rewrite (lstrip_app _ _ _ Hws Hn Hs), (rstrip_app _ _ Hn Hs).
    apply split_space_first_app; [exact Hs|].
    destruct (rstrip_prefix (" "%char :: rest)) as [suf E].
    destruct (rstrip (" "%char :: rest)) as [|c t]; [exact I|].
    cbn [app] in E. injection E as <- _. reflexivity. }
  split; [exact A|]. split.
  - intros ws' Hws'. unfold _extract_street_number, strip.
    rewrite (lstrip_app _ _ _ Hws Hn Hs), (rstrip_app _ _ Hn Hs).
    rewrite (rstrip_all _ Hws'). now apply split_space_first_app.
  - intros unit rest Hu.
    rewrite (text_after_hyphen_cut unit _ Hu).
    unfold _extract_street_number. rewrite strip_idem. apply A.
Qed.

(** *** Application numbers *)

Lemma try_numbers_some attempts draw table : forall i n,
  try_numbers attempts draw i table = Some n ->
  existsb (eqs n) table = false
  /\ exists j, i <= j < i + attempts /\ n = draw j
               /\ forall l, i <= l < j -> existsb (eqs (draw l)) table = true.
Proof.
  induction attempts as [|k IH]; intros i n H; [discriminate|].
  cbn [try_numbers] in H.
  destruct (existsb (eqs (draw i)) table) eqn:E.
  - destruct (IH _ _ H) as (Hn & j & Hj & Ej & Hl). split; [exact Hn|].
    exists j. split; [lia|]. split; [exact Ej|].
    intros l Hl'. destruct (Nat.eq_dec l i) as [->|Hne]; [exact E|].
    apply Hl. lia.
  - injection H as <-. split; [exact E|]. exists i.
    split; [lia|]. split; [reflexivity|]. intros l Hl. lia.
Qed.

Lemma try_numbers_none attempts draw table : forall i,
  try_numbers attempts draw i table = None
  <-> forall l, i <= l < i + attempts -> existsb (eqs (draw l)) table = true.
Proof.
  induction attempts as [|k IH]; intros i.
  - split; [intros _ l Hl; lia | reflexivity].
  - cbn [try_numbers]. destruct (existsb (eqs (draw i)) table) eqn:E.
    + rewrite IH. split; intros H l Hl.
      * destruct (Nat.eq_dec l i) as [->|Hne]; [exact E | apply H; lia].
      * apply H. lia.
    + split; [discriminate|]. intros H. rewrite H in E by lia. discriminate.
Qed.

Lemma existsb_eqs_in n table : existsb (eqs n) table = true <-> In n table.
Proof.
  rewrite existsb_exists. split.
  - intros (x & Hx & E). apply eqs_eq in E. now subst.
  - intros H. exists n. split; [exact H | apply eqs_refl].
Qed.

(** X17: [generate_unique_application_number] returns the first of up
    to ten generated numbers that no application has: the number is not in
    use, and every number generated before it is.  It raises ValueError
    exactly when the ten numbers generated are all in use. *)
Theorem application_number_is_unused draw table :
  (forall n,
      generate_unique_application_number draw table = Some n ->
      ~ In n table
      /\ exists j, j < 10 /\ n = draw j
                   /\ forall l, l < j -> In (draw l) table)
  /\ (generate_unique_application_number draw table = None
      <-> forall l, l < 10 -> In (draw l) table).
Proof.
  unfold generate_unique_application_number, max_attempts. split.
  - intros n H. destruct (try_numbers_some _ _ _ _ _ H) as (Hn & j & Hj & Ej & Hl).
    split.
    + intros Hin. apply existsb_eqs_in in Hin. congruence.
    + exists j. split; [lia|]. split; [exact Ej|].
      intros l Hlj. apply existsb_eqs_in, Hl. lia.
  - rewrite try_numbers_none. split; intros H l Hl.
    + apply existsb_eqs_in, H. lia.
    + apply existsb_eqs_in, H. lia.
Qed.

(** *** Instances of the further properties *)

Lemma gap_strata_case :
  active_strata_case sample_request strata_with_gap sample_address_json
    hotel_with_gap.
Proof. repeat split. Qed.

(** "123" claimed, "99" on file: the street number is reported. *)
Lemma host_street_number_check_witness :
  exists outcome,
    check_permit_details sample_message sample_date sample_request
      (host_registration ACTIVE address_elsewhere)
    = Ok outcome
    /\ reports sample_message outcome STREET_NUMBER_MISMATCH.
Proof.
  destruct (host_street_number_check sample_message sample_date _ _ _ _
              elsewhere_host_case) as (outcome & E & _ & Hflag).
  exists outcome. split; [exact E|].
  apply Hflag. exists (py "99").
  repeat split; intros H; discriminate H.
Defined.

(** The sample claim against a permit elsewhere: three errors, in the order
    of the checks. *)
Lemma host_checks_all_run_witness :
  exists response,
    check_permit_details sample_message sample_date sample_request
      (host_registration ACTIVE address_elsewhere)
    = Ok (response, BAD_REQUEST)
    /\ get response "errors"
       = Some (VList [ error_entry sample_message STREET_NUMBER_MISMATCH;
                       error_entry sample_message POSTAL_CODE_MISMATCH;
                       error_entry sample_message UNIT_NUMBER_MISMATCH ]).
Proof.
  destruct (host_checks_all_run sample_message sample_date _ _ _ _
              elsewhere_host_case)
    as (response & status_code & E & Hsome & _).
  destruct Hsome as [-> Herrors]; [intros H; vm_compute in H; discriminate H|].
  exists response. split; [exact E | exact Herrors].
Defined.

(** The response to the sample request on its own permit. *)
Lemma response_echoes_request_witness :
  OK <> NOT_FOUND
  /\ (exists added,
        keys (sample_request
                ++ [ ("status"%string, VScalar (SStr (py "ACTIVE")));
                     ("validUntil"%string, VScalar (SStr (py "0"))) ])
        = keys sample_request ++ added
        /\ incl added [ "status"; "errors"; "validUntil" ]%string)
  /\ (forall k,
        ~ In k [ "status"; "errors"; "validUntil" ]%string ->
        get (sample_request
               ++ [ ("status"%string, VScalar (SStr (py "ACTIVE")));
                    ("validUntil"%string, VScalar (SStr (py "0"))) ]) k
        = get sample_request k).
Proof.
  apply (response_echoes_request sample_message sample_date sample_request
           (host_registration ACTIVE sample_address)).
  reflexivity.
Defined.

(** The response to the sample request on a permit elsewhere reports
    errors, and no status. *)
Lemma outcome_is_errors_or_status_witness :
  exists response,
    check_permit_details sample_message sample_date sample_request
      (host_registration ACTIVE address_elsewhere)
    = Ok (response, BAD_REQUEST)
    /\ get response "status" = None
    /\ get response "validUntil" = None.
Proof.
  assert (E : check_permit_details sample_message sample_date sample_request
                 (host_registration ACTIVE address_elsewhere)
               = Ok (set sample_request "errors"
                       (VList [ error_entry sample_message STREET_NUMBER_MISMATCH;
                                error_entry sample_message POSTAL_CODE_MISMATCH;
                                error_entry sample_message UNIT_NUMBER_MISMATCH ]),
                     BAD_REQUEST)) by reflexivity.
  eexists. split; [exact E|].
  destruct (outcome_is_errors_or_status sample_message sample_date _ _ _ _ E)
    as [(_ & _ & _ & Hs & Hv) | (Hc & _)]; [|discriminate Hc].
  split; [exact Hs | exact Hv].
Defined.

(** A platform's registration is active: the address is not looked at. *)
Lemma other_registration_types_pass_witness :
  check_permit_details sample_message sample_date sample_request
    platform_registration
  = Ok (set (set sample_request "status" (VScalar (SStr (py "ACTIVE"))))
          "validUntil" (VScalar (SStr (sample_date 0%Z))),
        OK).
Proof.
  apply (other_registration_types_pass sample_message sample_date
           sample_request platform_registration); reflexivity.
Defined.

(** A request with an identifier and no address. *)
Lemma missing_address_raises_witness :
  check_permit_details sample_message sample_date request_without_address
    (host_registration ACTIVE sample_address)
  = Raise AttributeError.
Proof.
  apply missing_address_raises.
  - reflexivity.
  - intros H; discriminate H.
  - intros claim H; discriminate H.
Defined.

(** The unit number 4 given as an integer, against a permit with a unit
    number: the normaliser is handed the integer. *)
Lemma host_exceptions_witness :
  check_permit_details sample_message sample_date request_with_numeric_unit
    (host_registration ACTIVE sample_address)
  = Raise TypeError.
Proof.
  apply (proj2 (proj1 (proj2
           (host_exceptions sample_message sample_date
              request_with_numeric_unit
              (host_registration ACTIVE sample_address)
              claim_with_numeric_unit sample_address
              (conj eq_refl (conj eq_refl (conj eq_refl eq_refl))))))).
  split; [reflexivity|]. split; [intros H; discriminate H | reflexivity].
Defined.

(** The primary location is turned down and the first building has no
    address on file: the matcher raises, and the second building, which is
    the one claimed, is not looked at. *)
Lemma strata_candidates_examined_in_order_witness :
  check_permit_details sample_message sample_date sample_request
    strata_with_gap
  = Raise TypeError.
Proof.
  refine (proj1 (strata_candidates_examined_in_order sample_message sample_date
                   _ _ _ _ gap_strata_case
                   [pine_street] address_not_on_file [main_street]
                   eq_refl _) eq_refl).
  repeat constructor.
  exists (py "20 Pine St"). split; [reflexivity|]. left.
  intros [H|H]; discriminate H.
Defined.

(** A request on an unknown permit. *)
Lemma validate_permit_status_codes_witness :
  (NOT_FOUND = NOT_FOUND
   <-> fst (accept_all sample_request) = true
       /\ empty_registry (get sample_request "identifier") = None)
  /\ (NOT_FOUND = NOT_FOUND ->
      [ ("errors"%string,
         VList [ error_entry sample_message PERMIT_NOT_FOUND ]) ]
      = [ ("errors"%string,
           VList [ [ ("code"%string, SStr (py "PERMIT_NOT_FOUND"));
                     ("message"%string,
                      SStr (sample_message PERMIT_NOT_FOUND)) ] ]) ])
  /\ (fst (accept_all sample_request) = false ->
      NOT_FOUND = BAD_REQUEST
      /\ [ ("errors"%string,
            VList [ error_entry sample_message PERMIT_NOT_FOUND ]) ]
         = [ ("errors"%string, VList (snd (accept_all sample_request))) ]).
Proof.
  eapply (validate_permit_status_codes sample_message sample_date accept_all
            empty_registry sample_request []).
  reflexivity.
Defined.

(** The line of a unit and a street. *)
Lemma text_after_the_first_hyphen_witness :
  _get_text_after_hyphen (py "5- 123 Main St - rear") = py "123 Main St - rear".
Proof.
  exact (proj2 text_after_the_first_hyphen (py "5") (py " 123 Main St - rear")
           eq_refl).
Defined.

(** Two spaces, the number, and the street. *)
Lemma street_number_is_the_first_token_witness :
  _extract_street_number (py "  123 Main St") = py "123".
Proof.
  refine (proj1 (street_number_is_the_first_token (py "  ") (py "123") _ _ _)
            (py "Main St")).
  - repeat constructor.
  - intros H; discriminate H.
  - repeat constructor.
Defined.

Lemma filtered_ignores_case_witness :
  _get_filtered_unit_number (py "suite 4b")
  = _get_filtered_unit_number (py "SUITE 4B").
Proof. apply filtered_ignores_case. reflexivity. Defined.

Lemma filtered_ignores_leading_mark_witness :
  _get_filtered_unit_number (py "#Unit 12") = _get_filtered_unit_number (py "Unit 12").
Proof.
  exact (filtered_ignores_leading_mark "#"%char (py "Unit 12") eq_refl).
Defined.

Lemma filtered_ignores_leading_zeros_of_numbers_witness :
  _get_filtered_unit_number (py "00120") = _get_filtered_unit_number (py "120")
  /\ _get_filtered_unit_number (py "120") = py "120".
Proof.
  apply (filtered_ignores_leading_zeros_of_numbers 2 (py "120")).
  - intros H; discriminate H.
  - repeat constructor.
Defined.

(** The first two numbers drawn are in use, the third is returned. *)
Lemma application_number_is_unused_witness :
  generate_unique_application_number sample_draw numbers_in_use
  = Some (py "33333333333333")
  /\ ~ In (py "33333333333333") numbers_in_use.
Proof.
  split; [reflexivity|].
  apply (proj1 (application_number_is_unused sample_draw numbers_in_use)
           (py "33333333333333") eq_refl).
Defined.
